(** * Message pipeline of [app/main.py]: HTTP front door, TCP relay, ingest worker

    A shallow embedding of [app/main.py].  Python [str] values are lists of
    Unicode code points, [bytes] values are lists of [Byte.byte].  The library
    calls the program relies on ([str.strip], [bytes.decode], [parse_qs],
    [json.dumps], [json.loads]) are given executable models, one module each;
    the program's own functions ([do_GET], [do_POST], [handle_client], ...)
    keep their names and are written over explicit state: the file system,
    the TCP link and the document collection.  The limits of the interpreter
    that a request or a payload can reach (the room [json.loads] has for
    nested containers, the number of digits [int] converts) are a parameter
    of the functions that depend on them. *)

From Stdlib Require Import String Ascii.
From Stdlib Require Import List NArith ZArith Bool Lia Permutation.
From Stdlib Require Strings.Byte DecimalString.
Import ListNotations.


(* ================================================================== *)
(** ** Text: Python [str] as a list of code points *)
(* ================================================================== *)

Module Text.
Local Open Scope N_scope.

Definition pystr := list N.

(** [lit s] is the Python string literal written [s] (ASCII source text). *)
Definition lit (s : string) : pystr :=
  List.map N_of_ascii (list_ascii_of_string s).

Definition pystr_eqb (a b : pystr) : bool :=
  if list_eq_dec N.eq_dec a b then true else false.

(** [str.isspace] on one code point: the characters [str.strip] removes
    when called without argument. *)
Definition is_space (c : N) : bool :=
  ((9 <=? c) && (c <=? 13)) || ((28 <=? c) && (c <=? 32))
  || (c =? 133) || (c =? 160) || (c =? 5760)
  || ((8192 <=? c) && (c <=? 8202))
  || (c =? 8232) || (c =? 8233) || (c =? 8239) || (c =? 8287)
  || (c =? 12288).

Fixpoint lstrip (s : pystr) : pystr :=
  match s with
  | [] => []
  | c :: r => if is_space c then lstrip r else s
  end.

Definition rstrip (s : pystr) : pystr := rev (lstrip (rev s)).

(** [s.strip()] *)
Definition strip (s : pystr) : pystr := rstrip (lstrip s).

(** A high or low surrogate code point. *)
Definition is_surrogate (c : N) : bool := (55296 <=? c) && (c <=? 57343).

(** A Unicode scalar value: what decoding bytes can produce. *)
Definition is_scalar (c : N) : bool := (c <? 1114112) && negb (is_surrogate c).

Definition scalar_text (s : pystr) : Prop := Forall (fun c => is_scalar c = true) s.

Definition is_ascii (c : N) : bool := c <? 128.

Definition ascii_text (s : pystr) : Prop := Forall (fun c => is_ascii c = true) s.

End Text.
Import Text.

(* ================================================================== *)
(** ** UTF-8: [bytes.decode("utf-8", errors="replace")] and [str.encode("utf-8")] *)
(* ================================================================== *)

Module Utf8.
Local Open Scope N_scope.

Definition bytes := list Byte.byte.

(** U+FFFD, substituted for every maximal ill-formed subsequence. *)
Definition REPLACEMENT : N := 0xFFFD.

Definition bv (b : Byte.byte) : N := Byte.to_N b.

Definition in_range (lo hi n : N) : bool := (lo <=? n) && (n <=? hi).

Definition is_cont (n : N) : bool := in_range 0x80 0xBF n.

(** Range of the second byte after a three-byte lead [E0..EF]: overlong
    forms (after E0) and surrogates (after ED) are excluded. *)
Definition second3_ok (lead n : N) : bool :=
  if lead =? 0xE0 then in_range 0xA0 0xBF n
  else if lead =? 0xED then in_range 0x80 0x9F n
  else is_cont n.

(** Range of the second byte after a four-byte lead [F0..F4]. *)
Definition second4_ok (lead n : N) : bool :=
  if lead =? 0xF0 then in_range 0x90 0xBF n
  else if lead =? 0xF4 then in_range 0x80 0x8F n
  else is_cont n.

(** [bs.decode("utf-8", errors="replace")]: a lead byte followed by the
    continuation bytes it announces gives one code point; an invalid byte, or
    a sequence cut short by an invalid byte or by the end of the input,
    gives one U+FFFD and decoding resumes at the offending byte. *)
Fixpoint decode (bs : bytes) : pystr :=
  match bs with
  | [] => []
  | b0 :: r0 =>
    let n0 := bv b0 in
    if n0 <? 0x80 then n0 :: decode r0
    else if n0 <? 0xC2 then REPLACEMENT :: decode r0
    else if n0 <? 0xE0 then
      match r0 with
      | [] => [REPLACEMENT]
      | b1 :: r1 =>
        if is_cont (bv b1)
        then ((n0 - 0xC0) * 64 + (bv b1 - 0x80)) :: decode r1
        else REPLACEMENT :: decode r0
      end
    else if n0 <? 0xF0 then
      match r0 with
      | [] => [REPLACEMENT]
      | b1 :: r1 =>
        if second3_ok n0 (bv b1) then
          match r1 with
          | [] => [REPLACEMENT]
          | b2 :: r2 =>
            if is_cont (bv b2)
            then ((n0 - 0xE0) * 4096 + (bv b1 - 0x80) * 64 + (bv b2 - 0x80))
                 :: decode r2
            else REPLACEMENT :: decode r1
          end
        else REPLACEMENT :: decode r0
      end
    else if n0 <? 0xF5 then
      match r0 with
      | [] => [REPLACEMENT]
      | b1 :: r1 =>
        if second4_ok n0 (bv b1) then
          match r1 with
          | [] => [REPLACEMENT]
          | b2 :: r2 =>
            if is_cont (bv b2) then
              match r2 with
              | [] => [REPLACEMENT]
              | b3 :: r3 =>
                if is_cont (bv b3)
                then ((n0 - 0xF0) * 262144 + (bv b1 - 0x80) * 4096
                      + (bv b2 - 0x80) * 64 + (bv b3 - 0x80)) :: decode r3
                else REPLACEMENT :: decode r2
              end
            else REPLACEMENT :: decode r1
          end
        else REPLACEMENT :: decode r0
      end
    else REPLACEMENT :: decode r0
  end.

Definition byte_of (n : N) : Byte.byte :=
  match Byte.of_N n with Some b => b | None => Byte.x00 end.

(** The UTF-8 bytes of one code point; [None] is [UnicodeEncodeError]
    (the strict handler refuses surrogates). *)
Definition encode_cp (c : N) : option bytes :=
  if c <? 0x80 then Some [byte_of c]
  else if c <? 0x800 then Some [byte_of (0xC0 + c / 64); byte_of (0x80 + c mod 64)]
  else if is_surrogate c then None
  else if c <? 0x10000 then
    Some [byte_of (0xE0 + c / 4096); byte_of (0x80 + (c / 64) mod 64);
          byte_of (0x80 + c mod 64)]
  else if c <? 0x110000 then
    Some [byte_of (0xF0 + c / 262144); byte_of (0x80 + (c / 4096) mod 64);
          byte_of (0x80 + (c / 64) mod 64); byte_of (0x80 + c mod 64)]
  else None.

(** [s.encode("utf-8")] *)
Fixpoint encode (s : pystr) : option bytes :=
  match s with
  | [] => Some []
  | c :: r =>
    match encode_cp c, encode r with
    | Some bc, Some br => Some (bc ++ br)
    | _, _ => None
    end
  end.

End Utf8.
Import Utf8.


(* ================================================================== *)
(** ** Dictionaries keyed by strings, in insertion order *)
(* ================================================================== *)

Module Dict.

Definition dict (V : Type) := list (pystr * V).

(** [d.get(k)] *)
Fixpoint get {V} (d : dict V) (k : pystr) : option V :=
  match d with
  | [] => None
  | (k', v) :: r => if pystr_eqb k' k then Some v else get r k
  end.

(** [d[k] = v]: an existing key keeps its position and takes the new value. *)
Fixpoint set {V} (d : dict V) (k : pystr) (v : V) : dict V :=
  match d with
  | [] => [(k, v)]
  | (k', v') :: r =>
    if pystr_eqb k' k then (k', v) :: r else (k', v') :: set r k v
  end.

Definition keys {V} (d : dict V) : list pystr := List.map fst d.

End Dict.

(* ================================================================== *)
(** ** [urllib.parse]: [unquote] and [parse_qs] with their default arguments *)
(* ================================================================== *)

Module Urllib.
Local Open Scope N_scope.

(** [s.split(sep)] for a one-character separator. *)
Fixpoint split (sep : N) (s : pystr) : list pystr :=
  match s with
  | [] => [[]]
  | c :: r =>
    if c =? sep then [] :: split sep r
    else match split sep r with
         | [] => [[c]]
         | p :: ps => (c :: p) :: ps
         end
  end.

(** [s.split(sep, 1)] when [sep] occurs: the text before and after its first
    occurrence; [None] when the result has fewer than two parts. *)
Fixpoint split1 (sep : N) (s : pystr) : option (pystr * pystr) :=
  match s with
  | [] => None
  | c :: r =>
    if c =? sep then Some ([], r)
    else match split1 sep r with
         | Some (a, b) => Some (c :: a, b)
         | None => None
         end
  end.

(** [s.replace('+', ' ')] *)
Definition plus_to_space (s : pystr) : pystr :=
  List.map (fun c => if c =? 43 then 32 else c) s.

Definition hexval (c : N) : option N :=
  if in_range 48 57 c then Some (c - 48)
  else if in_range 65 70 c then Some (c - 55)
  else if in_range 97 102 c then Some (c - 87)
  else None.

(** [unquote_to_bytes]: [%XX] with two hexadecimal digits is one byte, any
    other [%] stays a percent sign. *)
Fixpoint unquote_to_bytes (b : list N) : bytes :=
  match b with
  | [] => []
  | c :: r =>
    if c =? 37 then
      match r with
      | h1 :: h2 :: r' =>
        match hexval h1, hexval h2 with
        | Some a, Some d => byte_of (16 * a + d) :: unquote_to_bytes r'
        | _, _ => byte_of 37 :: unquote_to_bytes r
        end
      | _ => byte_of 37 :: unquote_to_bytes r
      end
    else byte_of c :: unquote_to_bytes r
  end.

(** One maximal ASCII run of [unquote]: percent-decoded, then decoded as
    UTF-8 with replacement. *)
Definition unquote_run (run : pystr) : pystr := decode (unquote_to_bytes run).

(** The parts of [unquote]: ASCII runs go through [unquote_run], the
    non-ASCII text between them is kept.  [run] is the ASCII run read so far. *)
Fixpoint unquote_parts (run s : pystr) : pystr :=
  match s with
  | [] => unquote_run run
  | c :: r =>
    if is_ascii c then unquote_parts (run ++ [c]) r
    else unquote_run run ++ c :: unquote_parts [] r
  end.

(** [unquote(string)] with [encoding='utf-8', errors='replace']. *)
Definition unquote (s : pystr) : pystr :=
  if existsb (N.eqb 37) s then unquote_parts [] s else s.

(** [parse_qsl(qs)]: fields are separated by [&] (the only separator since
    Python 3.10); a field without [=] or with an empty value is skipped
    ([keep_blank_values=False], [strict_parsing=False]). *)
Definition parse_field (name_value : pystr) : list (pystr * pystr) :=
  match name_value with
  | [] => []
  | _ =>
    match split1 61 name_value with
    | None => []
    | Some (n, v) =>
      match v with
      | [] => []
      | _ => [(unquote (plus_to_space n), unquote (plus_to_space v))]
      end
    end
  end.

Definition parse_qsl (qs : pystr) : list (pystr * pystr) :=
  flat_map parse_field (split 38 qs).

(** The loop of [parse_qs]: the values of one name are collected in the
    order of their fields. *)
Fixpoint add_value (d : Dict.dict (list pystr)) (name value : pystr)
  : Dict.dict (list pystr) :=
  match d with
  | [] => [(name, [value])]
  | (k, vs) :: r =>
    if pystr_eqb k name then (k, vs ++ [value]) :: r
    else (k, vs) :: add_value r name value
  end.

Definition parse_qs (qs : pystr) : Dict.dict (list pystr) :=
  fold_left (fun d nv => add_value d (fst nv) (snd nv)) (parse_qsl qs) [].

End Urllib.
Import Urllib.

(* ================================================================== *)
(** ** Exceptions and the clock *)
(* ================================================================== *)

Module Py.

(** The exceptions the program can meet.  [OSError] stands for every failure
    of a socket or file call other than a missing file, and carries its
    message. *)
Inductive exn :=
| AttributeError
| ValueError
| IndexError
| UnicodeEncodeError
| RecursionError
| OSError (reason : string).

(** The limits of the interpreter that runs the code: [nesting] is the
    number of JSON containers that may be open at once before the recursion
    limit is hit (what is left of [sys.getrecursionlimit()] when [json.loads]
    scans), [max_str_digits] the longest digit string [int] converts
    ([sys.get_int_max_str_digits()], 4300 by default; 0 lifts the limit, as
    in the versions that have none). *)
Record interp := {
  nesting : positive;
  max_str_digits : N
}.

(** Whether a string of [digits] digits is beyond the limit of [int]. *)
Definition too_many_digits (py : interp) (digits : nat) : bool :=
  ((0 <? max_str_digits py) && (max_str_digits py <? N.of_nat digits))%N.

Inductive outcome (A : Type) :=
| Ok (a : A)
| Raise (e : exn).
Arguments Ok {A} a.
Arguments Raise {A} e.

Definition bind {A B} (m : outcome A) (k : A -> outcome B) : outcome B :=
  match m with
  | Ok a => k a
  | Raise e => Raise e
  end.

(** [str(n)] for a natural number. *)
Definition str_of_N (n : N) : pystr :=
  lit (DecimalString.NilEmpty.string_of_uint (N.to_uint n)).

(** A reading of [datetime.now()]. *)
Record datetime := {
  year : N; month : N; day : N;
  hour : N; minute : N; second : N; microsecond : N
}.

Fixpoint zeros (k : nat) : pystr :=
  match k with
  | O => []
  | S k' => 48%N :: zeros k'
  end.

(** [n] in decimal, padded with zeros to [width] digits. *)
Definition padded (width : nat) (n : N) : pystr :=
  let s := str_of_N n in zeros (width - List.length s) ++ s.

(** [str(d)]: ISO format with a space, the microseconds only when not zero. *)
Definition str_datetime (d : datetime) : pystr :=
  padded 4 (year d) ++ lit "-" ++ padded 2 (month d) ++ lit "-" ++ padded 2 (day d)
  ++ lit " " ++ padded 2 (hour d) ++ lit ":" ++ padded 2 (minute d)
  ++ lit ":" ++ padded 2 (second d)
  ++ (if (microsecond d =? 0)%N then [] else lit "." ++ padded 6 (microsecond d)).

End Py.
Import Py.

(* ================================================================== *)
(** ** Python values and [json]: [json.dumps] and [json.loads] with their defaults *)
(* ================================================================== *)

Module Json.
Local Open Scope N_scope.

(** A [float] read from JSON text: the constants, or a decimal literal
    [mant * 10^exp10] (the value before rounding to a double). *)
Inductive pyfloat :=
| FNan
| FInf (neg : bool)
| FDec (neg : bool) (mant : N) (exp10 : Z).

(** The Python values [json.loads] can return. *)
#[warnings="-register-all"]
Inductive pyobj :=
| PNone
| PBool (b : bool)
| PInt (z : Z)
| PFloat (f : pyfloat)
| PStr (s : pystr)
| PList (l : list pyobj)
| PDict (d : list (pystr * pyobj)).

(** A decimal literal rounds to the double [0.0] when it is zero or at most
    [2^-1075], half of the least positive double. *)
Definition float_is_zero (f : pyfloat) : bool :=
  match f with
  | FDec _ m e =>
    (m =? 0) || ((e <? 0)%Z && (Z.of_N m * 2 ^ 1075 <=? 10 ^ (- e))%Z)
  | _ => false
  end.

(** [bool(v)], the test made by [v or ...]. *)
Definition truthy (v : pyobj) : bool :=
  match v with
  | PNone => false
  | PBool b => b
  | PInt z => negb (z =? 0)%Z
  | PFloat f => negb (float_is_zero f)
  | PStr s => match s with [] => false | _ => true end
  | PList l => match l with [] => false | _ => true end
  | PDict d => match d with [] => false | _ => true end
  end.

(** *** Encoding *)

Definition hexdigit (n : N) : N := if n <? 10 then 48 + n else 87 + n.

(** [\uXXXX] with lowercase digits, each taken from four bits of [c]. *)
Definition u_escape (c : N) : pystr :=
  [92; 117; hexdigit ((c / 4096) mod 16); hexdigit ((c / 256) mod 16);
   hexdigit ((c / 16) mod 16); hexdigit (c mod 16)].

(** One character under [ensure_ascii=True]: printable ASCII other than the
    quote and the backslash is kept, everything else is escaped, code points
    above U+FFFF as a surrogate pair. *)
Definition escape_char (c : N) : pystr :=
  if c =? 34 then [92; 34]
  else if c =? 92 then [92; 92]
  else if c =? 10 then [92; 110]
  else if c =? 13 then [92; 114]
  else if c =? 9 then [92; 116]
  else if c =? 12 then [92; 102]
  else if c =? 8 then [92; 98]
  else if in_range 32 126 c then [c]
  else if c <? 0x10000 then u_escape c
  else u_escape (0xD800 + ((c - 0x10000) / 1024) mod 1024)
       ++ u_escape (0xDC00 + (c - 0x10000) mod 1024).

Definition encode_basestring_ascii (s : pystr) : pystr :=
  34 :: flat_map escape_char s ++ [34].

Fixpoint join (sep : pystr) (l : list pystr) : pystr :=
  match l with
  | [] => []
  | [x] => x
  | x :: r => x ++ sep ++ join sep r
  end.

Definition dumps_item (kv : pystr * pystr) : pystr :=
  encode_basestring_ascii (fst kv) ++ lit ": " ++ encode_basestring_ascii (snd kv).

(** [json.dumps(d)] for a dict whose values are strings: the default
    separators [", "] and [": "], no indentation, [ensure_ascii=True]. *)
Definition dumps (d : Dict.dict pystr) : pystr :=
  lit "{" ++ join (lit ", ") (List.map dumps_item d) ++ lit "}".

(** *** Decoding *)

Definition is_ws (c : N) : bool := (c =? 32) || (c =? 9) || (c =? 10) || (c =? 13).

Fixpoint skip_ws (s : pystr) : pystr :=
  match s with
  | [] => []
  | c :: r => if is_ws c then skip_ws r else s
  end.

(** The character a one-letter escape stands for. *)
Definition unescape (e : N) : option N :=
  if e =? 34 then Some 34
  else if e =? 92 then Some 92
  else if e =? 47 then Some 47
  else if e =? 98 then Some 8
  else if e =? 102 then Some 12
  else if e =? 110 then Some 10
  else if e =? 114 then Some 13
  else if e =? 116 then Some 9
  else None.

Definition hex4 (a b c d : N) : option N :=
  match hexval a, hexval b, hexval c, hexval d with
  | Some x, Some y, Some z, Some w => Some (((x * 16 + y) * 16 + z) * 16 + w)
  | _, _, _, _ => None
  end.

Definition is_high (c : N) : bool := in_range 0xD800 0xDBFF c.
Definition is_low (c : N) : bool := in_range 0xDC00 0xDFFF c.

Definition join_surrogates (hi lo : N) : N :=
  0x10000 + (hi - 0xD800) * 1024 + (lo - 0xDC00).

Definition push (c : N) (r : option (pystr * pystr)) : option (pystr * pystr) :=
  match r with
  | Some (s, rest) => Some (c :: s, rest)
  | None => None
  end.

(** [scanstring] in strict mode, from the character after the opening quote:
    the decoded string and the text after the closing quote; [None] is
    [JSONDecodeError]. *)
Fixpoint scanstring (s : pystr) : option (pystr * pystr) :=
  match s with
  | [] => None
  | c :: r =>
    if c =? 34 then Some ([], r)
    else if c =? 92 then
      match r with
      | [] => None
      | e :: r' =>
        if e =? 117 then
          match r' with
          | a :: b :: c' :: d :: r1 =>
            match hex4 a b c' d with
            | None => None
            | Some c1 =>
              if is_high c1 then
                match r1 with
                | bs :: u :: a2 :: b2 :: c2 :: d2 :: r2 =>
                  if (bs =? 92) && (u =? 117) then
                    match hex4 a2 b2 c2 d2 with
                    | None => None
                    | Some c2' =>
                      if is_low c2'
                      then push (join_surrogates c1 c2') (scanstring r2)
                      else push c1 (scanstring r1)
                    end
                  else push c1 (scanstring r1)
                | _ => push c1 (scanstring r1)
                end
              else push c1 (scanstring r1)
            end
          | _ => None
          end
        else
          match unescape e with
          | Some ch => push ch (scanstring r')
          | None => None
          end
      end
    else if c <? 32 then None
    else push c (scanstring r)
  end.

Definition is_digit (c : N) : bool := in_range 48 57 c.

(** The longest prefix of digits, and the rest. *)
Fixpoint digits (s : pystr) : pystr * pystr :=
  match s with
  | [] => ([], [])
  | c :: r =>
    if is_digit c then let (ds, rest) := digits r in (c :: ds, rest)
    else ([], s)
  end.

Definition digits_value (ds : pystr) : N :=
  fold_left (fun acc c => acc * 10 + (c - 48)) ds 0.

(** The optional fraction: a dot and at least one digit. *)
Definition match_frac (s : pystr) : option (pystr * pystr) :=
  match s with
  | dot :: d :: r =>
    if (dot =? 46) && is_digit d then Some (digits (d :: r)) else None
  | _ => None
  end.

(** The optional exponent: [e] or [E], an optional sign, at least one digit. *)
Definition match_exp (s : pystr) : option (Z * pystr) :=
  match s with
  | e :: r =>
    if (e =? 101) || (e =? 69) then
      let (neg, r1) :=
        match r with
        | sg :: r' =>
          if sg =? 45 then (true, r') else if sg =? 43 then (false, r') else (false, r)
        | [] => (false, r)
        end in
      match digits r1 with
      | ([], _) => None
      | (ds, rest) =>
        let v := Z.of_N (digits_value ds) in
        Some ((if neg then - v else v)%Z, rest)
      end
    else None
  | [] => None
  end.

(** What scanning makes of a text: a value, [Rejected] for
    [json.JSONDecodeError], or another exception that the scanner lets
    through. *)
Inductive scan (A : Type) :=
| Got (a : A)
| Rejected
| Failed (e : exn).
Arguments Got {A} a.
Arguments Rejected {A}.
Arguments Failed {A} e.

(** A number: an optional minus sign, then [0] or a digit string without
    leading zero, then the optional fraction and exponent; an [int] when
    there is neither fraction nor exponent, a [float] otherwise.  The digits
    of an [int] go through [int], which raises [ValueError] beyond the limit
    of the interpreter; [float] has no such limit. *)
Definition match_number (py : interp) (s : pystr) : scan (pyobj * pystr) :=
  let (neg, s1) :=
    match s with
    | c :: r => if c =? 45 then (true, r) else (false, s)
    | [] => (false, s)
    end in
  let intpart :=
    match s1 with
    | d :: r =>
      if d =? 48 then Some ([d], r)
      else if in_range 49 57 d then Some (digits s1)
      else None
    | [] => None
    end in
  match intpart with
  | None => Rejected
  | Some (ids, r1) =>
    let (fds, r2) :=
      match match_frac r1 with Some p => p | None => ([], r1) end in
    match match_exp r2 with
    | Some (e, r3) =>
      Got (PFloat (FDec neg (digits_value (ids ++ fds))
                        (e - Z.of_nat (List.length fds))), r3)
    | None =>
      match fds with
      | [] =>
        if too_many_digits py (List.length ids) then Failed ValueError
        else
          let v := Z.of_N (digits_value ids) in
          Got (PInt (if neg then - v else v)%Z, r2)
      | _ =>
        Got (PFloat (FDec neg (digits_value (ids ++ fds))
                          (- Z.of_nat (List.length fds))), r2)
      end
    end
  end.

(** [s] starts with [p]: the text after it. *)
Fixpoint strip_prefix (p s : pystr) : option pystr :=
  match p, s with
  | [], _ => Some s
  | a :: p', b :: s' => if a =? b then strip_prefix p' s' else None
  | _ :: _, [] => None
  end.

(** The scanner.  [scan_once] reads one value; [parse_members] is the loop
    of an object, entered at a key, and [parse_elements] the loop of an
    array, entered at a value.  [room] is the number of containers that may
    still be opened: the scanner enters the recursion guard before it reads
    an object or an array, and [RecursionError] comes out when no room is
    left.  [fuel] bounds the number of steps: a step into a container and
    the step to its first value read one character between them, so twice
    the length of the text, which [loads] gives, is more than any text
    uses. *)
Fixpoint scan_once (fuel room : nat) (py : interp) (s : pystr) {struct fuel}
  : scan (pyobj * pystr) :=
  match fuel with
  | O => Rejected
  | S f =>
    match s with
    | [] => Rejected
    | c :: r =>
      if c =? 34 then
        match scanstring r with
        | Some (str, rest) => Got (PStr str, rest)
        | None => Rejected
        end
      else if c =? 123 then
        match room with
        | O => Failed RecursionError
        | S room' =>
          match skip_ws r with
          | c1 :: r1 =>
            if c1 =? 125 then Got (PDict [], r1)
            else parse_members f room' py [] (c1 :: r1)
          | [] => Rejected
          end
        end
      else if c =? 91 then
        match room with
        | O => Failed RecursionError
        | S room' =>
          match skip_ws r with
          | c1 :: r1 =>
            if c1 =? 93 then Got (PList [], r1)
            else parse_elements f room' py [] (c1 :: r1)
          | [] => Rejected
          end
        end
      else
        match strip_prefix (lit "null") s with
        | Some rest => Got (PNone, rest)
        | None =>
        match strip_prefix (lit "true") s with
        | Some rest => Got (PBool true, rest)
        | None =>
        match strip_prefix (lit "false") s with
        | Some rest => Got (PBool false, rest)
        | None =>
        match strip_prefix (lit "NaN") s with
        | Some rest => Got (PFloat FNan, rest)
        | None =>
        match strip_prefix (lit "Infinity") s with
        | Some rest => Got (PFloat (FInf false), rest)
        | None =>
        match strip_prefix (lit "-Infinity") s with
        | Some rest => Got (PFloat (FInf true), rest)
        | None => match_number py s
        end end end end end end
    end
  end
with parse_members (fuel room : nat) (py : interp) (acc : list (pystr * pyobj))
  (s : pystr) {struct fuel} : scan (pyobj * pystr) :=
  match fuel with
  | O => Rejected
  | S f =>
    match s with
    | q :: r =>
      if q =? 34 then
        match scanstring r with
        | Some (key, r1) =>
          match skip_ws r1 with
          | colon :: r2 =>
            if colon =? 58 then
              match scan_once f room py (skip_ws r2) with
              | Got (v, r3) =>
                let acc' := Dict.set acc key v in
                match skip_ws r3 with
                | c3 :: r4 =>
                  if c3 =? 125 then Got (PDict acc', r4)
                  else if c3 =? 44 then parse_members f room py acc' (skip_ws r4)
                  else Rejected
                | [] => Rejected
                end
              | Rejected => Rejected
              | Failed e => Failed e
              end
            else Rejected
          | [] => Rejected
          end
        | None => Rejected
        end
      else Rejected
    | [] => Rejected
    end
  end
with parse_elements (fuel room : nat) (py : interp) (acc : list pyobj) (s : pystr)
  {struct fuel} : scan (pyobj * pystr) :=
  match fuel with
  | O => Rejected
  | S f =>
    match scan_once f room py s with
    | Got (v, r1) =>
      match skip_ws r1 with
      | c :: r2 =>
        if c =? 93 then Got (PList (acc ++ [v]), r2)
        else if c =? 44 then parse_elements f room py (acc ++ [v]) (skip_ws r2)
        else Rejected
      | [] => Rejected
      end
    | Rejected => Rejected
    | Failed e => Failed e
    end
  end.

(** [json.loads(s)] for a [str].  A leading byte-order mark is refused,
    white space is allowed around the value, and nothing may follow it.
    [Rejected] is [json.JSONDecodeError]; [Failed] is what else the scanner
    raises: [RecursionError] for containers nested beyond the room the
    interpreter has, [ValueError] for an integer with too many digits. *)
Definition loads (py : interp) (s : pystr) : scan pyobj :=
  match s with
  | 0xFEFF :: _ => Rejected
  | _ =>
    match scan_once (List.length s + List.length s + 2) (Pos.to_nat (nesting py))
                    py (skip_ws s) with
    | Got (v, rest) =>
      match skip_ws rest with
      | [] => Got v
      | _ :: _ => Rejected
      end
    | Rejected => Rejected
    | Failed e => Failed e
    end
  end.

End Json.
Import Json.

(* ================================================================== *)
(** ** The TCP connection seen by the worker, and the collection *)
(* ================================================================== *)

Module Net.

(** How the peer's stream ends: it closes its write side, or the connection
    is reset. *)
Inductive ending := Eof | Reset.

(** What one [recv] returns before the end of the stream: at least one byte. *)
Definition chunk := (Byte.byte * bytes)%type.

Definition chunk_bytes (c : chunk) : bytes := fst c :: snd c.

(** An accepted connection: [inbox] lists what the successive [recv] calls
    return before the stream ends, [sent] the bytes written to the peer. *)
Record socket := {
  inbox : list chunk;
  at_end : ending;
  sent : bytes;
  closed : bool
}.

(** [conn.recv(4096)]: the next chunk; at the end of the stream, the empty
    bytes object or [ConnectionResetError]. *)
Definition recv (conn : socket) : outcome bytes * socket :=
  match inbox conn with
  | data :: rest =>
    (Ok (chunk_bytes data),
     {| inbox := rest; at_end := at_end conn;
        sent := sent conn; closed := closed conn |})
  | [] =>
    match at_end conn with
    | Eof => (Ok [], conn)
    | Reset => (Raise (OSError "Connection reset by peer"), conn)
    end
  end.

(** The bytes the peer sends before its stream ends. *)
Definition received (conn : socket) : bytes :=
  List.concat (List.map chunk_bytes (inbox conn)).

(** The connection once its stream has been read to the end. *)
Definition drained (conn : socket) : socket :=
  {| inbox := []; at_end := at_end conn; sent := sent conn; closed := closed conn |}.

(** [conn.close()], run when the [with conn] block is left. *)
Definition close (conn : socket) : socket :=
  {| inbox := inbox conn; at_end := at_end conn;
     sent := sent conn; closed := true |}.

End Net.
Import Net.

Module Mongo.

(** A record as handed to the collection: a dict of strings. *)
Definition document := Dict.dict pystr.

(** The collection: the documents stored so far, as they were handed over
    (the identifier the store adds is its own business), the number of
    [insert_one] calls made, and for each call whether it fails (with its
    message) or stores the document. *)
Record collection := {
  docs : list document;
  calls : nat;
  fault : nat -> option string
}.

(** [col.insert_one(doc)] *)
Definition insert_one (col : collection) (doc : document) : outcome unit * collection :=
  match fault col (calls col) with
  | Some msg =>
    (Raise (OSError msg),
     {| docs := docs col; calls := S (calls col); fault := fault col |})
  | None =>
    (Ok tt,
     {| docs := docs col ++ [doc]; calls := S (calls col); fault := fault col |})
  end.

(** The collection with the same contents whose inserts behave as [f] says. *)
Definition with_fault (col : collection) (f : nat -> option string) : collection :=
  {| docs := docs col; calls := calls col; fault := f |}.

End Mongo.
Import Mongo.

(* ================================================================== *)
(** ** The ingest worker: [handle_client] *)
(* ================================================================== *)

Module Worker.

(** How a handler thread ends: it returns, or an exception escapes it. *)
Inductive thread_end :=
| Returned
| Uncaught (e : exn).

(** The [while True] loop of [handle_client]: [chunks] grows by one [recv]
    result per turn until an empty one arrives.  [fuel] bounds the number of
    turns; [None] means the loop is still waiting when it runs out. *)
Fixpoint recv_loop (fuel : nat) (conn : socket) (chunks : list bytes)
  : option (outcome (list bytes) * socket) :=
  match fuel with
  | O => None
  | S f =>
    match recv conn with
    | (Raise e, conn') => Some (Raise e, conn')
    | (Ok data, conn') =>
      match data with
      | [] => Some (Ok chunks, conn')
      | _ :: _ => recv_loop f conn' (chunks ++ [data])
      end
    end
  end.

(** [json.loads(raw) if raw else {}], with [JSONDecodeError] caught and
    nothing else. *)
Definition decode_payload (py : interp) (raw : pystr) : outcome pyobj :=
  match raw with
  | [] => Ok (PDict [])
  | _ :: _ =>
    match loads py raw with
    | Got v => Ok v
    | Rejected => Ok (PDict [])
    | Failed e => Raise e
    end
  end.

(** [doc_in.get(key)]: only a dict has the method. *)
Definition py_get (doc_in : pyobj) (key : pystr) : outcome pyobj :=
  match doc_in with
  | PDict d =>
    match Dict.get d key with
    | Some v => Ok v
    | None => Ok PNone
    end
  | _ => Raise AttributeError
  end.

(** [v or ""] *)
Definition or_empty (v : pyobj) : pyobj := if truthy v then v else PStr [].

(** [v.strip()]: only a string has the method. *)
Definition py_strip (v : pyobj) : outcome pystr :=
  match v with
  | PStr s => Ok (strip s)
  | _ => Raise AttributeError
  end.

(** [(doc_in.get(key) or "").strip()] *)
Definition field (doc_in : pyobj) (key : pystr) : outcome pystr :=
  bind (py_get doc_in key) (fun v => py_strip (or_empty v)).

(** The dict literal [doc]; its three values are evaluated in order. *)
Definition make_doc (now : datetime) (doc_in : pyobj) : outcome document :=
  let date := str_datetime now in
  bind (field doc_in (lit "username")) (fun username =>
  bind (field doc_in (lit "message")) (fun message =>
  Ok [(lit "date", date); (lit "username", username); (lit "message", message)])).

(** The body of the [with conn] block after the loop. *)
Definition process (py : interp) (chunks : list bytes) (now : datetime)
  (col : collection) : thread_end * collection :=
  let raw := decode (List.concat chunks) in
  match bind (decode_payload py raw) (make_doc now) with
  | Raise e => (Uncaught e, col)
  | Ok doc =>
    match insert_one col doc with
    | (Ok _, col') => (Returned, col')
    | (Raise _, col') => (Returned, col')
    end
  end.

(** [handle_client(conn, col)] run by the interpreter [py] with [fuel] turns
    of the receive loop, [now] being what [datetime.now()] reads.  The
    connection is closed when the [with] block is left, also by an
    exception. *)
Definition handle_client_fuel (py : interp) (fuel : nat) (conn : socket)
  (col : collection) (now : datetime) : option (thread_end * socket * collection) :=
  match recv_loop fuel conn [] with
  | None => None
  | Some (Raise e, conn') => Some (Uncaught e, close conn', col)
  | Some (Ok chunks, conn') =>
    let (res, col') := process py chunks now col in
    Some (res, close conn', col')
  end.

(** The record built from a payload without usable fields. *)
Definition empty_doc (now : datetime) : document :=
  [(lit "date", str_datetime now); (lit "username", []); (lit "message", [])].

(** One more turn than there are chunks reaches the end of the stream. *)
Definition enough (conn : socket) : nat := S (List.length (inbox conn)).

(** [handle_client(conn, col)], run by the interpreter [py]. *)
Definition handle_client (py : interp) (conn : socket) (col : collection)
  (now : datetime) : option (thread_end * socket * collection) :=
  handle_client_fuel py (enough conn) conn col now.

End Worker.
Import Worker.

(* ================================================================== *)
(** ** The TCP link between the front door and the worker *)
(* ================================================================== *)

Module Link.

(** What happens to one relay attempt: the connection is refused (or times
    out) before it is established; or it is established and [sendall] fails
    after [delivered] bytes have reached the worker, whose stream then ends
    as [e] says; or every byte is delivered and the stream ends with the
    close of the [with] block. *)
Inductive fate :=
| Refused (reason : string)
| Broken (reason : string) (delivered : nat) (e : ending)
| Delivered.

(** The network around the front door: the number of connection attempts
    made so far, the fate of each attempt, the size of the pieces in which
    bytes reach the worker's [recv] (one more than [piece], at most 4096),
    and the connections the worker has been handed, oldest first. *)
Record network := {
  dials : nat;
  fate_of : nat -> fate;
  piece : nat;
  accepted : list socket
}.

Fixpoint chop_fuel (fuel k : nat) (b : bytes) : list chunk :=
  match fuel with
  | O => []
  | S f =>
    match b with
    | [] => []
    | x :: t => (x, firstn k t) :: chop_fuel f k (skipn k t)
    end
  end.

(** [b] cut into pieces of [S k] bytes, the last one shorter. *)
Definition chop (k : nat) (b : bytes) : list chunk :=
  chop_fuel (List.length b) (Nat.min k 4095) b.

Definition arriving (net : network) (b : bytes) (e : ending) : socket :=
  {| inbox := chop (piece net) b; at_end := e; sent := []; closed := false |}.

(** [with socket.create_connection((SOCKET_HOST, SOCKET_PORT), timeout=5) as s:
    s.sendall(payload)] *)
Definition connect_and_send (net : network) (payload : bytes)
  : outcome unit * network :=
  let n := dials net in
  match fate_of net n with
  | Refused reason =>
    (Raise (OSError reason),
     {| dials := S n; fate_of := fate_of net; piece := piece net;
        accepted := accepted net |})
  | Broken reason k e =>
    (Raise (OSError reason),
     {| dials := S n; fate_of := fate_of net; piece := piece net;
        accepted := accepted net ++ [arriving net (firstn k payload) e] |})
  | Delivered =>
    (Ok tt,
     {| dials := S n; fate_of := fate_of net; piece := piece net;
        accepted := accepted net ++ [arriving net payload Eof] |})
  end.

End Link.
Import Link.

(* ================================================================== *)
(** ** The front door: [SimpleRouter] *)
(* ================================================================== *)

Module Http.
Local Open Scope N_scope.

(** A request as the handler sees it: [self.path], [self.headers] (each
    value as the bytes of its line, which the server decodes as Latin-1), and
    the bytes that can be read from [self.rfile]. *)
Record request := {
  path : pystr;
  headers : list (pystr * bytes);
  rfile : bytes
}.

(** [b.decode('iso-8859-1')] *)
Definition latin1 (b : bytes) : pystr := List.map bv b.

(** What a handler does to its response, call by call. *)
Inductive event :=
| send_response (code : N)
| send_header (keyword value : pystr)
| end_headers
| wfile_write (data : bytes)
| send_error (code : N) (message : pystr).

(** What is behind a path: a file that can be read, nothing, or something
    that exists and cannot be opened for reading (a directory, a file without
    permission), for which [open] raises an [OSError] that is not
    [FileNotFoundError]. *)
Inductive entry :=
| File (data : bytes)
| Absent
| Unreadable (reason : string).

(** The files under [BASE_DIR], by their path relative to it, and the table
    of [mimetypes.guess_type]. *)
Record site := {
  files : pystr -> entry;
  mimetypes : pystr -> option pystr
}.

(** [guess_type(path)] *)
Definition guess_type (st : site) (p : pystr) : pystr :=
  match mimetypes st p with
  | Some (c :: t) => c :: t
  | _ => lit "application/octet-stream"
  end.

(** The [try] block of [_respond_file]. *)
Definition serve_bytes (st : site) (filepath : pystr) (status : N)
  (content_type : option pystr) (data : bytes) : list event :=
  [send_response status;
   send_header (lit "Content-Type")
     (match content_type with
      | Some (c :: t) => c :: t
      | _ => guess_type st filepath
      end);
   send_header (lit "Content-Length") (str_of_N (N.of_nat (List.length data)));
   end_headers;
   wfile_write data].

(** [_respond_404]: [error.html] when the path exists, the built-in page
    otherwise.  The file is read by [_respond_file], whose [except] clause
    catches [FileNotFoundError] only: an [error.html] that exists and cannot
    be read lets the [OSError] out.  ([os.path.exists] and the read agree
    here, so the [_respond_file] it calls does not come back to it.) *)
Definition _respond_404 (st : site) : list event * outcome unit :=
  match files st (lit "error.html") with
  | File data =>
    (serve_bytes st (lit "error.html") 404 (Some (lit "text/html; charset=utf-8")) data,
     Ok tt)
  | Unreadable reason => ([], Raise (OSError reason))
  | Absent => ([send_error 404 (lit "Not Found")], Ok tt)
  end.

(** [_respond_file(filepath, status, content_type)]: the file is read before
    anything is sent. *)
Definition _respond_file (st : site) (filepath : pystr) (status : N)
  (content_type : option pystr) : list event * outcome unit :=
  match files st filepath with
  | File data => (serve_bytes st filepath status content_type data, Ok tt)
  | Absent => _respond_404 st
  | Unreadable reason => ([], Raise (OSError reason))
  end.

(** [do_GET] *)
Definition do_GET (st : site) (req : request) : list event * outcome unit :=
  let p := path req in
  if pystr_eqb p (lit "/") || pystr_eqb p (lit "/index.html") then
    _respond_file st (lit "index.html") 200 (Some (lit "text/html; charset=utf-8"))
  else if pystr_eqb p (lit "/message.html") then
    _respond_file st (lit "message.html") 200 (Some (lit "text/html; charset=utf-8"))
  else if pystr_eqb p (lit "/style.css") then
    _respond_file st (lit "static/style.css") 200 (Some (lit "text/css; charset=utf-8"))
  else if pystr_eqb p (lit "/logo.png") then
    _respond_file st (lit "static/logo.png") 200 (Some (lit "image/png"))
  else _respond_404 st.

(** [s.lower()] on the ASCII letters, enough for header names. *)
Definition lower (s : pystr) : pystr :=
  List.map (fun c => if in_range 65 90 c then c + 32 else c) s.

(** [self.headers.get(name, failobj)]: the first header of that name,
    whatever its case. *)
Fixpoint header_get (hs : list (pystr * bytes)) (name failobj : pystr) : pystr :=
  match hs with
  | [] => failobj
  | (k, v) :: r =>
    if pystr_eqb (lower k) (lower name) then latin1 v else header_get r name failobj
  end.

(** The white space [int] skips around the number: the ASCII blanks, and
    the other Unicode spaces from U+0085 on.  The separators U+001C to
    U+001F, which [str.strip] removes, are not among them. *)
Definition is_int_space (c : N) : bool :=
  in_range 9 13 c || (c =? 32) || ((127 <=? c) && is_space c).

Fixpoint skip_int_space (s : pystr) : pystr :=
  match s with
  | [] => []
  | c :: r => if is_int_space c then skip_int_space r else s
  end.

(** The digits of [int(s)], up to the white space that may follow them:
    single underscores are allowed between digits.  [count] is the number of
    digits read. *)
Fixpoint int_digits (acc : Z) (count : nat) (after_digit : bool) (s : pystr)
  : option (Z * nat) :=
  match s with
  | [] => if after_digit then Some (acc, count) else None
  | c :: r =>
    if is_digit c then int_digits (acc * 10 + Z.of_N (c - 48)) (S count) true r
    else if (c =? 95) && after_digit then
      match r with
      | d :: _ => if is_digit d then int_digits acc count false r else None
      | [] => None
      end
    else if after_digit then
      match skip_int_space s with
      | [] => Some (acc, count)
      | _ :: _ => None
      end
    else None
  end.

(** [int(s)] for a header value, which is Latin-1 text: white space around,
    an optional sign, ASCII digits, no more of them than the interpreter
    converts; [None] is [ValueError]. *)
Definition py_int (py : interp) (s : pystr) : option Z :=
  let signed :=
    match skip_int_space s with
    | c :: r =>
      if c =? 45 then (true, r)
      else if c =? 43 then (false, r)
      else (false, c :: r)
    | [] => (false, [])
    end in
  match int_digits 0 0 false (snd signed) with
  | Some (v, count) =>
    if too_many_digits py count then None
    else Some (if fst signed then (- v)%Z else v)
  | None => None
  end.

(** [self.rfile.read(n)] on the buffered reader of the connection: [n]
    bytes, all of them for [-1], and [ValueError] for a length below [-1]. *)
Definition rfile_read (n : Z) (stream : bytes) : outcome bytes :=
  if (n <? -1)%Z then Raise ValueError
  else if (n <? 0)%Z then Ok stream
  else Ok (firstn (Z.to_nat n) stream).

(** [form.get(key, [""])[0]] *)
Definition first_value (form : Dict.dict (list pystr)) (key : pystr) : outcome pystr :=
  match Dict.get form key with
  | None => Ok []
  | Some (v :: _) => Ok v
  | Some [] => Raise IndexError
  end.

(** The dict that [do_POST] serializes. *)
Definition submission (username message : pystr) : Dict.dict pystr :=
  [(lit "username", username); (lit "message", message)].

(** [do_POST] up to the payload: the body is read, parsed as a form, the two
    fields are trimmed and serialized. *)
Definition build_payload (py : interp) (req : request) : outcome bytes :=
  match py_int py (header_get (headers req) (lit "Content-Length") (lit "0")) with
  | None => Raise ValueError
  | Some content_length =>
    bind (rfile_read content_length (rfile req)) (fun data =>
    let body := decode data in
    let form := parse_qs body in
    bind (first_value form (lit "username")) (fun u =>
    bind (first_value form (lit "message")) (fun m =>
    let username := strip u in
    let message := strip m in
    match encode (dumps (submission username message)) with
    | Some payload => Ok payload
    | None => Raise UnicodeEncodeError
    end)))
  end.

(** The [except] branch of [do_POST]. *)
Definition error_500 (e : exn) : list event * outcome unit :=
  let text :=
    match e with
    | OSError reason => lit reason
    | _ => []
    end in
  let head :=
    [send_response 500;
     send_header (lit "Content-Type") (lit "text/plain; charset=utf-8");
     end_headers] in
  match encode (lit "Socket server error: " ++ text) with
  | Some data => (head ++ [wfile_write data], Ok tt)
  | None => (head, Raise UnicodeEncodeError)
  end.

(** [do_POST], run by the interpreter [py]: the calls made on the response,
    how the handler ends, and the network afterwards. *)
Definition do_POST (py : interp) (st : site) (req : request) (net : network)
  : list event * outcome unit * network :=
  if negb (pystr_eqb (path req) (lit "/message")) then
    (_respond_404 st, net)
  else
    match build_payload py req with
    | Raise e => ([], Raise e, net)
    | Ok payload =>
      match connect_and_send net payload with
      | (Raise e, net') => (error_500 e, net')
      | (Ok _, net') =>
        ([send_response 302; send_header (lit "Location") (lit "/"); end_headers],
         Ok tt, net')
      end
    end.

End Http.
Import Http.

(* ================================================================== *)
(** ** The two processes together *)
(* ================================================================== *)

Module Pipeline.

(** The loop of [socket_server] over the connections it accepts, taken one
    after the other: each gets its own [handle_client] run, all on the one
    collection opened at start.  [clock k] is what the [k]-th handler reads
    from [datetime.now()]. *)
Fixpoint socket_server (py : interp) (conns : list socket)
  (clock : nat -> datetime) (k : nat) (col : collection)
  : option (list (thread_end * socket) * collection) :=
  match conns with
  | [] => Some ([], col)
  | conn :: rest =>
    match handle_client py conn col (clock k) with
    | None => None
    | Some (res, conn', col') =>
      match socket_server py rest clock (S k) col' with
      | None => None
      | Some (ends, col'') => Some ((res, conn') :: ends, col'')
      end
    end
  end.

(** One [POST] handled by the front door, then the worker handling the
    connections that request opened. *)
Definition submit (py : interp) (st : site) (req : request) (net : network)
  (col : collection) (clock : nat -> datetime)
  : option (list event * outcome unit * list (thread_end * socket) * collection) :=
  match do_POST py st req net with
  | (evs, res, net') =>
    let opened := skipn (List.length (accepted net)) (accepted net') in
    match socket_server py opened clock 0 col with
    | None => None
    | Some (ends, col') => Some (evs, res, ends, col')
    end
  end.

End Pipeline.
Import Pipeline.

(* ================================================================== *)
(** ** Concrete inputs used in the examples below *)
(* ================================================================== *)

Module Sample.
Local Open Scope N_scope.

(** The quote character, and a quoted literal. *)
Definition dq : pystr := [34].
Definition quoted (s : string) : pystr := dq ++ lit s ++ dq.

(** The bytes of an ASCII literal. *)
Definition blit (s : string) : bytes := List.map byte_of (lit s).

(** An interpreter with the default limits: a recursion limit of 1000, of
    which a few frames are in use when the scanner starts, and 4300 digits. *)
Definition cpython : interp := {| nesting := 990; max_str_digits := 4300 |}.

Definition t0 : datetime :=
  {| year := 2026; month := 11; day := 3; hour := 9; minute := 5;
     second := 0; microsecond := 120 |}.

Definition clock0 : nat -> datetime := fun _ => t0.

Definition net0 (f : fate) : network :=
  {| dials := 0; fate_of := fun _ => f; piece := 7; accepted := [] |}.

Definition col0 : collection :=
  {| docs := []; calls := 0; fault := fun _ => None |}.

(** A collection whose next insert fails. *)
Definition col_down : collection :=
  {| docs := []; calls := 0; fault := fun _ => Some "server selection timeout"%string |}.

(** A site without [error.html]. *)
Definition bare : site := {| files := fun _ => Absent; mimetypes := fun _ => None |}.

(** A peer that sends [b] in one piece and closes. *)
Definition peer (b : bytes) : socket :=
  {| inbox := match b with [] => [] | x :: t => [(x, t)] end;
     at_end := Eof; sent := []; closed := false |}.

(** A site with every file of the application; the home page is [hello]. *)
Definition full : site :=
  {| files := fun p =>
       if pystr_eqb p (lit "index.html") then File (blit "hello")
       else if pystr_eqb p (lit "message.html") then File (blit "form")
       else if pystr_eqb p (lit "static/style.css") then File (blit "body{}")
       else if pystr_eqb p (lit "static/logo.png") then File [Byte.x89; Byte.x50]
       else if pystr_eqb p (lit "error.html") then File (blit "lost")
       else Absent;
     mimetypes := fun _ => None |}.

Definition get (p : string) : request :=
  {| path := lit p; headers := []; rfile := [] |}.

(** A form posted with its length, and the same form without any header. *)
Definition post_form (body : string) : request :=
  {| path := lit "/message";
     headers := [(lit "Host", blit "localhost");
                 (lit "content-length",
                  List.map byte_of (str_of_N (N.of_nat (String.length body))))];
     rfile := blit body |}.

Definition post_bare (body : string) : request :=
  {| path := lit "/message"; headers := [(lit "Host", blit "localhost")];
     rfile := blit body |}.

(** A form posted with a length of its own choosing. *)
Definition post_length (len body : string) : request :=
  {| path := lit "/message";
     headers := [(lit "Content-Length", blit len)];
     rfile := blit body |}.

(** The payload of a submission without fields. *)
Definition empty_payload : bytes :=
  List.map byte_of
    (lit "{" ++ quoted "username" ++ lit ": " ++ quoted ""
     ++ lit ", " ++ quoted "message" ++ lit ": " ++ quoted "" ++ lit "}").

(** Two thousand opening brackets: not JSON, and nested deeper than the
    interpreter has room for. *)
Definition deep_payload : bytes := List.repeat Byte.x5b 2000.


(** A payload with padded fields, a [date] of its own and one more key. *)
Definition rich_payload : bytes :=
  List.map byte_of
    (lit "{" ++ quoted "date" ++ lit ": " ++ quoted "1999-01-01"
     ++ lit ", " ++ quoted "username" ++ lit ": " ++ quoted "  Alice "
     ++ lit ", " ++ quoted "role" ++ lit ": " ++ quoted "admin"
     ++ lit ", " ++ quoted "message" ++ lit ": " ++ quoted " hi there "
     ++ lit "}").

Definition alice_doc : document :=
  [(lit "date", str_datetime t0); (lit "username", lit "Alice");
   (lit "message", lit "hi there")].

End Sample.
Import Sample.

(* ================================================================== *)
(** ** The specification's notions, stated on the model *)
(* ================================================================== *)

Module Spec.

(** The value a Submission carries for [key], as the specification words
    it: the trimmed string found under [key] in the payload, or the empty
    string when the key is absent or the payload is malformed. *)
Definition submitted (py : interp) (raw key : pystr) : pystr :=
  match loads py raw with
  | Got (PDict d) =>
    match Dict.get d key with
    | Some (PStr s) => strip s
    | _ => []
    end
  | _ => []
  end.

(** The Record the specification describes for a payload received at [now]. *)
Definition record_for (py : interp) (raw : pystr) (now : datetime) : document :=
  [(lit "date", str_datetime now);
   (lit "username", submitted py raw (lit "username"));
   (lit "message", submitted py raw (lit "message"))].

(** A complete response: status line, content type, length, body. *)
Definition page (status : N) (content_type : pystr) (data : bytes) : list event :=
  [send_response status;
   send_header (lit "Content-Type") content_type;
   send_header (lit "Content-Length") (str_of_N (N.of_nat (List.length data)));
   end_headers;
   wfile_write data].

(** The routing table of the specification: the file and the content type
    behind each of the five paths served. *)
Definition route (p : pystr) : option (pystr * pystr) :=
  if pystr_eqb p (lit "/") then Some (lit "index.html", lit "text/html; charset=utf-8")
  else if pystr_eqb p (lit "/index.html")
  then Some (lit "index.html", lit "text/html; charset=utf-8")
  else if pystr_eqb p (lit "/message.html")
  then Some (lit "message.html", lit "text/html; charset=utf-8")
  else if pystr_eqb p (lit "/style.css")
  then Some (lit "static/style.css", lit "text/css; charset=utf-8")
  else if pystr_eqb p (lit "/logo.png")
  then Some (lit "static/logo.png", lit "image/png")
  else None.

(** The request carries a header of that name, whatever its case. *)
Definition has_header (req : request) (name : pystr) : bool :=
  existsb (fun kv => pystr_eqb (lower (fst kv)) (lower name)) (headers req).

(** The values of the form fields named [key] in a URL-encoded body, in the
    order of the fields, the empty ones included. *)
Definition field_value (key name_value : pystr) : list pystr :=
  match split1 61 name_value with
  | Some (n, v) =>
    if pystr_eqb (unquote (plus_to_space n)) key
    then [unquote (plus_to_space v)] else []
  | None => []
  end.

Definition all_values (body key : pystr) : list pystr :=
  flat_map (field_value key) (split 38 body).

(** The same, without the fields whose value is empty. *)
Definition filled_value (key name_value : pystr) : list pystr :=
  match split1 61 name_value with
  | Some (n, c :: v) =>
    if pystr_eqb (unquote (plus_to_space n)) key
    then [unquote (plus_to_space (c :: v))] else []
  | _ => []
  end.

Definition filled_values (body key : pystr) : list pystr :=
  flat_map (filled_value key) (split 38 body).


(** The field as the form parser yields it: the first non-empty value. *)
Definition first_filled (body key : pystr) : pystr :=
  strip (hd [] (filled_values body key)).

(** The bytes of the body for an announced length of at least [-1]: that
    many bytes of the stream, or all of it for [-1]. *)
Definition announced (n : Z) (stream : bytes) : bytes :=
  if (n <? 0)%Z then stream else firstn (Z.to_nat n) stream.

(** The bytes sent for a Submission. *)
Definition wire (username message : pystr) : bytes :=
  List.map byte_of (dumps (submission username message)).


(** The redirect sent after a successful relay. *)
Definition redirect_home : list event :=
  [send_response 302; send_header (lit "Location") (lit "/"); end_headers].

(** The two fields of a stored Record. *)
Definition fields_of (doc : document) : option pystr * option pystr :=
  (Dict.get doc (lit "username"), Dict.get doc (lit "message")).

(** The 500 response carrying [data] as plain text. *)
Definition error_page (data : bytes) : list event :=
  [send_response 500;
   send_header (lit "Content-Type") (lit "text/plain; charset=utf-8");
   end_headers;
   wfile_write data].

End Spec.
Import Spec.

(* ================================================================== *)
(** ** Observations on responses and payloads *)
(* ================================================================== *)

Module Observe.

(** The status a response starts with. *)
Definition status_of (evs : list event) : option N :=
  match evs with
  | send_response code :: _ => Some code
  | send_error code _ :: _ => Some code
  | _ => None
  end.

(** A [Content-Length] header, whatever its value. *)
Definition is_length_header (e : event) : bool :=
  match e with
  | send_header k _ => pystr_eqb (lower k) (lower (lit "Content-Length"))
  | _ => false
  end.

(** Every body written was announced with its length. *)
Definition declares_length (evs : list event) : Prop :=
  forall data,
    In (wfile_write data) evs ->
    In (send_header (lit "Content-Length")
                    (str_of_N (N.of_nat (List.length data)))) evs.

(** The value under [key] is truthy and not a string: [.strip()] fails on it. *)
Definition bad_field (d : list (pystr * pyobj)) (key : pystr) : bool :=
  match Dict.get d key with
  | Some (PStr _) => false
  | Some v => truthy v
  | None => false
  end.

(** A decoded payload from which no Record can be built: it is not a dict,
    or one of the two fields is a truthy value that is not a string. *)
Definition unusable (doc_in : pyobj) : bool :=
  match doc_in with
  | PDict d => bad_field d (lit "username") || bad_field d (lit "message")
  | _ => true
  end.

(** The fields a connection adds to a collection that accepts the insert:
    none when the stream is reset or the payload is unusable. *)
Definition contribution (py : interp) (conn : socket)
  : list (option pystr * option pystr) :=
  match at_end conn with
  | Reset => []
  | Eof =>
    let raw := decode (received conn) in
    match decode_payload py raw with
    | Raise _ => []
    | Ok doc_in =>
      if unusable doc_in then []
      else [(Some (submitted py raw (lit "username")),
             Some (submitted py raw (lit "message")))]
    end
  end.



(** Two requests that announce 14 bytes; the second sends more. *)
Definition post_14 (sent_bytes : string) : request :=
  {| path := lit "/message";
     headers := [(lit "Content-Length", blit "14")];
     rfile := blit sent_bytes |}.


(** A site whose [static/logo.png] is a directory, and one whose only entry
    is an [error.html] that cannot be read. *)
Definition logo_is_directory : site :=
  {| files := fun p =>
       if pystr_eqb p (lit "static/logo.png") then Unreadable "Is a directory"
       else files full p;
     mimetypes := fun _ => None |}.

Definition error_page_locked : site :=
  {| files := fun p =>
       if pystr_eqb p (lit "error.html") then Unreadable "Permission denied"
       else Absent;
     mimetypes := fun _ => None |}.

End Observe.
Import Observe.
(* ================================================================== *)
(** * Properties *)
(* ================================================================== *)

(** ** Sanity checks of the library models on concrete inputs *)

Example decode_euro : decode [Byte.xe2; Byte.x82; Byte.xac] = [0x20AC%N].
Proof. reflexivity. Qed.
Example decode_truncated : decode [Byte.xe2; Byte.x82] = [REPLACEMENT].
Proof. reflexivity. Qed.
Example decode_overlong : decode [Byte.xe0; Byte.x80] = [REPLACEMENT; REPLACEMENT].
Proof. reflexivity. Qed.
Example decode_resume : decode [Byte.xe2; Byte.x82; Byte.x41] = [REPLACEMENT; 65%N].
Proof. reflexivity. Qed.
Example encode_euro : encode [0x20AC%N] = Some [Byte.xe2; Byte.x82; Byte.xac].
Proof. reflexivity. Qed.

Example parse_qs_basic :
  parse_qs (lit "username=+Al%C3%A9+&message=hi+there&x")
  = [(lit "username", [[32; 65; 108; 233; 32]%N]); (lit "message", [lit "hi there"])].
Proof. reflexivity. Qed.
Example parse_qs_blank_dropped :
  parse_qs (lit "username=&username=bob") = [(lit "username", [lit "bob"])].
Proof. reflexivity. Qed.
Example parse_qs_percent : parse_qs (lit "a=%%41%4") = [(lit "a", [lit "%A%4"])].
Proof. reflexivity. Qed.

Example dumps_empty :
  dumps [(lit "username", []); (lit "message", [])]
  = lit "{" ++ quoted "username" ++ lit ": " ++ quoted ""
    ++ lit ", " ++ quoted "message" ++ lit ": " ++ quoted "" ++ lit "}".
Proof. reflexivity. Qed.

(** ** Facts about [strip] *)

Section StripFacts.

Lemma lstrip_fixed (s : pystr) : lstrip (lstrip s) = lstrip s.
Proof.
  induction s as [|c r IH]; simpl; [reflexivity|].
  destruct (is_space c) eqn:E; [exact IH|].
  simpl. now rewrite E.
Qed.

Lemma lstrip_app (a b : pystr) :
  lstrip (a ++ b) = if forallb is_space a then lstrip b else lstrip a ++ b.
Proof.
  induction a as [|c r IH]; simpl; [reflexivity|].
  destruct (is_space c); simpl; [exact IH|reflexivity].
Qed.

Lemma lstrip_all_space (s : pystr) : forallb is_space s = true -> lstrip s = [].
Proof.
  induction s as [|c r IH]; simpl; [reflexivity|].
  destruct (is_space c); simpl; [exact IH|discriminate].
Qed.

Lemma forallb_rev {A} (p : A -> bool) (l : list A) :
  forallb p (rev l) = forallb p l.
Proof.
  induction l as [|x l IH]; simpl; [reflexivity|].
  rewrite forallb_app, IH. simpl. rewrite andb_true_r. apply andb_comm.
Qed.

Lemma rstrip_cons (c : N) (r : pystr) :
  rstrip (c :: r) =
  if is_space c && forallb is_space r then [] else c :: rstrip r.
Proof.
  unfold rstrip. simpl. rewrite lstrip_app, forallb_rev.
  destruct (forallb is_space r) eqn:Hall.
  - rewrite andb_true_r. simpl.
    rewrite (lstrip_all_space (rev r)) by (now rewrite forallb_rev).
    destruct (is_space c); reflexivity.
  - rewrite andb_false_r, rev_app_distr. reflexivity.
Qed.

Lemma rstrip_fixed (s : pystr) : rstrip (rstrip s) = rstrip s.
Proof.
  unfold rstrip. now rewrite rev_involutive, lstrip_fixed.
Qed.

Lemma lstrip_rstrip (s : pystr) : lstrip (rstrip s) = rstrip (lstrip s).
Proof.
  induction s as [|c r IH]; [reflexivity|].
  rewrite rstrip_cons. simpl.
  destruct (is_space c) eqn:Hc; simpl.
  - destruct (forallb is_space r) eqn:Hall.
    + now rewrite (lstrip_all_space r Hall).
    + simpl. rewrite Hc. exact IH.
  - rewrite Hc. rewrite rstrip_cons, Hc. reflexivity.
Qed.

(** Trimming twice is trimming once. *)
Lemma strip_idempotent (s : pystr) : strip (strip s) = strip s.
Proof.
  unfold strip. now rewrite lstrip_rstrip, lstrip_fixed, rstrip_fixed.
Qed.

Lemma lstrip_Forall (P : N -> Prop) (s : pystr) : Forall P s -> Forall P (lstrip s).
Proof.
  induction 1 as [|c r Hc Hr IH]; simpl; [constructor|].
  destruct (is_space c); [exact IH|now constructor].
Qed.

Lemma strip_Forall (P : N -> Prop) (s : pystr) : Forall P s -> Forall P (strip s).
Proof.
  intros H. unfold strip, rstrip.
  apply Forall_rev, lstrip_Forall, Forall_rev, lstrip_Forall, H.
Qed.

End StripFacts.

Example strip_alice : strip (lit "  Alice ") = lit "Alice".
Proof. reflexivity. Qed.

(** ** Facts about the UTF-8 codec *)

Section Utf8Facts.
Local Open Scope N_scope.

Lemma bv_byte_of (n : N) : n < 256 -> bv (byte_of n) = n.
Proof.
  intros Hn. unfold bv, byte_of.
  pose proof (Byte.to_of_N_option_map n) as H.
  destruct (Byte.of_N n) as [b|] eqn:E; simpl in H.
  - destruct (n <=? 255); simpl in H; congruence.
  - destruct (n <=? 255) eqn:L; [discriminate|].
    apply N.leb_gt in L. lia.
Qed.

Lemma bv_bounded (b : Byte.byte) : bv b < 256.
Proof.
  unfold bv. pose proof (Byte.to_N_bounded b) as H. apply N.lt_succ_r in H. exact H.
Qed.

(** ASCII bytes decode to themselves. *)
Lemma decode_ascii (s : pystr) :
  ascii_text s -> decode (List.map byte_of s) = s.
Proof.
  induction 1 as [|c r Hc Hr IH]; [reflexivity|].
  unfold is_ascii in Hc. apply N.ltb_lt in Hc.
  cbn [List.map decode]. rewrite bv_byte_of by lia.
  replace (c <? 0x80) with true by (symmetry; apply N.ltb_lt; exact Hc).
  now rewrite IH.
Qed.

(** ASCII text encodes to one byte per character. *)
Lemma encode_ascii (s : pystr) :
  ascii_text s -> encode s = Some (List.map byte_of s).
Proof.
  induction 1 as [|c r Hc Hr IH]; [reflexivity|].
  unfold is_ascii in Hc.
  cbn [encode List.map]. unfold encode_cp.
  replace (c <? 0x80) with true by (symmetry; exact Hc).
  now rewrite IH.
Qed.

Lemma ascii_text_app (a b : pystr) : ascii_text a -> ascii_text b -> ascii_text (a ++ b).
Proof. intros Ha Hb. apply Forall_app; split; assumption. Qed.

Lemma N_of_ascii_bounded (a : ascii) : N_of_ascii a < 256.
Proof.
  destruct a as [[] [] [] [] [] [] [] []]; vm_compute; reflexivity.
Qed.

(** The text of a literal has code points below 256. *)
Lemma lit_low (s : string) : Forall (fun c => c < 256) (lit s).
Proof.
  unfold lit. induction s as [|a s IH]; simpl; constructor.
  - apply N_of_ascii_bounded.
  - exact IH.
Qed.

Lemma decode_one (c : N) (r : bytes) :
  c < 0x80 -> decode (byte_of c :: r) = c :: decode r.
Proof.
  intros Hc. cbn [decode]. rewrite bv_byte_of by lia.
  replace (c <? 0x80) with true by (symmetry; apply N.ltb_lt; exact Hc).
  reflexivity.
Qed.

Lemma decode_two (n0 n1 : N) (r : bytes) :
  0xC2 <= n0 -> n0 < 0xE0 -> 0x80 <= n1 -> n1 <= 0xBF ->
  decode (byte_of n0 :: byte_of n1 :: r)
  = ((n0 - 0xC0) * 64 + (n1 - 0x80)) :: decode r.
Proof.
  intros H1 H2 H3 H4. cbn [decode]. rewrite !bv_byte_of by lia.
  replace (n0 <? 0x80) with false by (symmetry; apply N.ltb_ge; lia).
  replace (n0 <? 0xC2) with false by (symmetry; apply N.ltb_ge; lia).
  replace (n0 <? 0xE0) with true by (symmetry; apply N.ltb_lt; lia).
  unfold is_cont, in_range.
  replace (0x80 <=? n1) with true by (symmetry; apply N.leb_le; lia).
  replace (n1 <=? 0xBF) with true by (symmetry; apply N.leb_le; lia).
  reflexivity.
Qed.

(** Text with code points below 256 encodes, and decodes back to itself. *)
Lemma decode_encode_low (s : pystr) :
  Forall (fun c => c < 256) s ->
  exists data, encode s = Some data /\ decode data = s.
Proof.
  induction 1 as [|c r Hc Hr (data & IHe & IHd)]; [now exists []|].
  cbn [encode]. rewrite IHe. unfold encode_cp.
  destruct (c <? 0x80) eqn:E1.
  - apply N.ltb_lt in E1. eexists. split; [reflexivity|].
    cbn [app]. rewrite decode_one by exact E1. now rewrite IHd.
  - apply N.ltb_ge in E1.
    replace (c <? 0x800) with true by (symmetry; apply N.ltb_lt; lia).
    eexists. split; [reflexivity|]. cbn [app].
    pose proof (N.div_mod c 64) as Ed.
    pose proof (N.mod_lt c 64) as Lm.
    assert (Hq : 2 <= c / 64 /\ c / 64 <= 3).
    { generalize dependent (c mod 64). generalize dependent (c / 64).
      intros; lia. }
    assert (Hv : (0xC0 + c / 64 - 0xC0) * 64 + (0x80 + c mod 64 - 0x80) = c).
    { generalize dependent (c mod 64). generalize dependent (c / 64).
      intros; lia. }
    rewrite decode_two.
    + now rewrite Hv, IHd.
    + generalize dependent (c / 64). intros; lia.
    + generalize dependent (c / 64). intros; lia.
    + generalize dependent (c mod 64). intros; lia.
    + generalize dependent (c mod 64). intros; lia.
Qed.

End Utf8Facts.

(** ** The wire format: what [loads] makes of [dumps] *)

Section JsonFacts.
Local Open Scope N_scope.

Lemma hexval_hexdigit (n : N) : n < 16 -> hexval (hexdigit n) = Some n.
Proof.
  intros H.
  assert (E : exists k, (k < 16)%nat /\ n = N.of_nat k)
    by (exists (N.to_nat n); lia).
  destruct E as (k & Hk & ->).
  do 16 (destruct k as [|k]; [reflexivity|]). lia.
Qed.

Lemma hexdigit_ascii (n : N) : n < 16 -> is_ascii (hexdigit n) = true.
Proof.
  intros H. unfold hexdigit, is_ascii.
  destruct (n <? 10); apply N.ltb_lt; lia.
Qed.

Lemma mod16_lt (n : N) : n mod 16 < 16.
Proof. apply N.mod_lt. discriminate. Qed.

Lemma hex_digits_value (c : N) :
  c < 0x10000 ->
  (((c / 4096) mod 16 * 16 + (c / 256) mod 16) * 16 + (c / 16) mod 16) * 16
  + c mod 16 = c.
Proof.
  intros Hc.
  change 4096 with (16 * (16 * 16)). change 256 with (16 * 16).
  rewrite <- !N.Div0.div_div.
  pose proof (N.div_mod c 16) as E0.
  pose proof (N.div_mod (c / 16) 16) as E1.
  pose proof (N.div_mod (c / 16 / 16) 16) as E2.
  pose proof (N.div_mod (c / 16 / 16 / 16) 16) as E3.
  pose proof (N.mod_lt c 16) as L0.
  pose proof (N.mod_lt (c / 16) 16) as L1.
  pose proof (N.mod_lt (c / 16 / 16) 16) as L2.
  pose proof (N.mod_lt (c / 16 / 16 / 16) 16) as L3.
  generalize dependent (c / 16 / 16 / 16 mod 16).
  generalize dependent (c / 16 / 16 mod 16).
  generalize dependent (c / 16 mod 16).
  generalize dependent (c mod 16).
  generalize dependent (c / 16 / 16 / 16).
  generalize dependent (c / 16 / 16).
  generalize dependent (c / 16).
  intros. lia.
Qed.

(** The four digits written by [u_escape] read back as the same number. *)
Lemma hex4_u_escape (c : N) :
  c < 0x10000 ->
  hex4 (hexdigit ((c / 4096) mod 16)) (hexdigit ((c / 256) mod 16))
       (hexdigit ((c / 16) mod 16)) (hexdigit (c mod 16)) = Some c.
Proof.
  intros Hc. unfold hex4.
  rewrite !hexval_hexdigit by apply mod16_lt.
  f_equal. apply hex_digits_value, Hc.
Qed.

(** Splitting an offset below 2^20 into two halves of ten bits loses nothing. *)
Lemma surrogate_halves (v : N) :
  v < 0x100000 ->
  join_surrogates (0xD800 + (v / 1024) mod 1024) (0xDC00 + v mod 1024)
  = 0x10000 + v.
Proof.
  intros Hv. unfold join_surrogates.
  pose proof (N.div_mod v 1024) as E0.
  pose proof (N.mod_lt v 1024) as L0.
  pose proof (N.div_mod (v / 1024) 1024) as E1.
  pose proof (N.mod_lt (v / 1024) 1024) as L1.
  generalize dependent ((v / 1024) mod 1024).
  generalize dependent (v mod 1024).
  generalize dependent (v / 1024).
  intros. lia.
Qed.

Lemma scanstring_plain (c : N) (r : pystr) :
  c <> 34 -> c <> 92 -> 32 <= c ->
  scanstring (c :: r) = push c (scanstring r).
Proof.
  intros H1 H2 H3. cbn [scanstring].
  apply N.eqb_neq in H1, H2. rewrite H1, H2.
  replace (c <? 32) with false by (symmetry; apply N.ltb_ge; exact H3).
  reflexivity.
Qed.

Lemma scanstring_escape (e ch : N) (r : pystr) :
  unescape e = Some ch -> e <> 117 ->
  scanstring (92 :: e :: r) = push ch (scanstring r).
Proof.
  intros H1 H2. cbn [scanstring].
  change (92 =? 34) with false. change (92 =? 92) with true. cbv iota.
  apply N.eqb_neq in H2. rewrite H2, H1. reflexivity.
Qed.

Lemma scanstring_u (a b c d c1 : N) (r : pystr) :
  hex4 a b c d = Some c1 -> is_high c1 = false ->
  scanstring (92 :: 117 :: a :: b :: c :: d :: r) = push c1 (scanstring r).
Proof.
  intros H1 H2. cbn [scanstring].
  change (92 =? 34) with false. change (92 =? 92) with true.
  change (117 =? 117) with true. cbv iota.
  rewrite H1, H2. reflexivity.
Qed.

Lemma scanstring_pair (a b c d a2 b2 c2 d2 hi lo : N) (r : pystr) :
  hex4 a b c d = Some hi -> is_high hi = true ->
  hex4 a2 b2 c2 d2 = Some lo -> is_low lo = true ->
  scanstring (92 :: 117 :: a :: b :: c :: d :: 92 :: 117 :: a2 :: b2 :: c2 :: d2 :: r)
  = push (join_surrogates hi lo) (scanstring r).
Proof.
  intros H1 H2 H3 H4.
  cbn [scanstring].
  change (92 =? 34) with false. change (92 =? 92) with true.
  change (117 =? 117) with true. cbv iota.
  rewrite H1, H2. cbn [andb]. rewrite H3, H4. reflexivity.
Qed.

Lemma scalar_bounds (c : N) :
  is_scalar c = true -> c < 0x110000 /\ (c < 0xD800 \/ 0xDFFF < c).
Proof.
  unfold is_scalar, is_surrogate. intros H.
  apply andb_true_iff in H as [H1 H2]. apply N.ltb_lt in H1.
  apply negb_true_iff, andb_false_iff in H2.
  split; [exact H1|].
  destruct H2 as [H2|H2]; [apply N.leb_gt in H2 | apply N.leb_gt in H2]; lia.
Qed.

(** One escaped character is read back as that character. *)
Lemma scanstring_escape_char (c : N) (r : pystr) :
  is_scalar c = true ->
  scanstring (escape_char c ++ r) = push c (scanstring r).
Proof.
  intros Hs. destruct (scalar_bounds c Hs) as [Hmax Hsur].
  unfold escape_char.
  destruct (c =? 34) eqn:E1; [apply N.eqb_eq in E1; subst; reflexivity|].
  destruct (c =? 92) eqn:E2; [apply N.eqb_eq in E2; subst; reflexivity|].
  destruct (c =? 10) eqn:E3; [apply N.eqb_eq in E3; subst; reflexivity|].
  destruct (c =? 13) eqn:E4; [apply N.eqb_eq in E4; subst; reflexivity|].
  destruct (c =? 9) eqn:E5; [apply N.eqb_eq in E5; subst; reflexivity|].
  destruct (c =? 12) eqn:E6; [apply N.eqb_eq in E6; subst; reflexivity|].
  destruct (c =? 8) eqn:E7; [apply N.eqb_eq in E7; subst; reflexivity|].
  apply N.eqb_neq in E1, E2.
  destruct (in_range 32 126 c) eqn:E8.
  - unfold in_range in E8. apply andb_true_iff in E8 as [L _].
    apply N.leb_le in L. apply scanstring_plain; assumption.
  - destruct (c <? 0x10000) eqn:E9.
    + apply N.ltb_lt in E9. unfold u_escape. cbn [app].
      apply scanstring_u; [apply hex4_u_escape, E9|].
      unfold is_high, in_range. apply andb_false_iff.
      destruct Hsur as [H|H]; [left; apply N.leb_gt | right; apply N.leb_gt]; lia.
    + apply N.ltb_ge in E9. unfold u_escape. cbn [app].
      assert (Hv : c - 0x10000 < 0x100000) by lia.
      assert (Hc : 0x10000 + (c - 0x10000) = c) by lia.
      assert (L1 : ((c - 0x10000) / 1024) mod 1024 < 1024)
        by (apply N.mod_lt; discriminate).
      assert (L2 : (c - 0x10000) mod 1024 < 1024)
        by (apply N.mod_lt; discriminate).
      erewrite scanstring_pair.
      * rewrite surrogate_halves by exact Hv. rewrite Hc. reflexivity.
      * apply hex4_u_escape.
        generalize dependent (((c - 0x10000) / 1024) mod 1024). intros; lia.
      * unfold is_high, in_range. apply andb_true_iff.
        generalize dependent (((c - 0x10000) / 1024) mod 1024).
        intros; split; apply N.leb_le; lia.
      * apply hex4_u_escape.
        generalize dependent ((c - 0x10000) mod 1024). intros; lia.
      * unfold is_low, in_range. apply andb_true_iff.
        generalize dependent ((c - 0x10000) mod 1024).
        intros; split; apply N.leb_le; lia.
Qed.

(** A string written by [encode_basestring_ascii] is read back unchanged,
    and the scan stops after the closing quote. *)
Lemma scanstring_encoded (s rest : pystr) :
  scalar_text s ->
  scanstring (flat_map escape_char s ++ 34 :: rest) = Some (s, rest).
Proof.
  induction 1 as [|c r Hc Hr IH]; [reflexivity|].
  cbn [flat_map]. rewrite <- app_assoc.
  rewrite scanstring_escape_char by exact Hc.
  rewrite IH. reflexivity.
Qed.

(** The serialized submission, piece by piece. *)
Lemma dumps_text (u m : pystr) :
  dumps (submission u m)
  = (lit "{" ++ quoted "username" ++ lit ": " ++ dq)
    ++ flat_map escape_char u
    ++ (dq ++ lit ", " ++ quoted "message" ++ lit ": " ++ dq)
    ++ flat_map escape_char m ++ (dq ++ lit "}").
Proof.
  unfold dumps, submission, dumps_item, encode_basestring_ascii.
  cbn [List.map join fst snd].
  change (flat_map escape_char (lit "username")) with (lit "username").
  change (flat_map escape_char (lit "message")) with (lit "message").
  unfold quoted, dq.
  repeat (rewrite <- ?app_assoc; cbn [app]).
  reflexivity.
Qed.

Ltac spell_out :=
  rewrite dumps_text;
  repeat (rewrite <- ?app_assoc; cbn [app]);
  unfold quoted, dq; cbn [lit list_ascii_of_string List.map app].

(** [loads] inverts [dumps] on a submission of well-formed text. *)
Lemma loads_dumps (py : interp) (u m : pystr) :
  scalar_text u -> scalar_text m ->
  loads py (dumps (submission u m))
  = Got (PDict [(lit "username", PStr u); (lit "message", PStr m)]).
Proof.
  intros Hu Hm. unfold loads. spell_out.
  destruct (Pos2Nat.is_succ (nesting py)) as [room Hroom]. rewrite Hroom.
  cbn. rewrite scanstring_encoded by exact Hu.
  cbn. rewrite scanstring_encoded by exact Hm.
  reflexivity.
Qed.

Lemma escape_char_ascii (c : N) : ascii_text (escape_char c).
Proof.
  assert (U : forall x, ascii_text (u_escape x)).
  { intros x. unfold u_escape, ascii_text.
    repeat constructor; apply hexdigit_ascii, mod16_lt. }
  unfold escape_char.
  repeat match goal with
         | |- ascii_text (if ?b then _ else _) => destruct b eqn:?
         end;
    try (repeat constructor; fail);
    try apply U; try (apply ascii_text_app; apply U).
  repeat constructor. unfold is_ascii.
  match goal with H : in_range 32 126 c = true |- _ =>
    unfold in_range in H; apply andb_true_iff in H as [_ H]; apply N.leb_le in H
  end.
  apply N.ltb_lt. lia.
Qed.

Lemma flat_map_escape_ascii (s : pystr) : ascii_text (flat_map escape_char s).
Proof.
  induction s as [|c r IH]; [constructor|].
  cbn [flat_map]. apply ascii_text_app; [apply escape_char_ascii|exact IH].
Qed.

(** With [ensure_ascii] the payload is pure ASCII, whatever the fields. *)
Lemma dumps_ascii (u m : pystr) : ascii_text (dumps (submission u m)).
Proof.
  rewrite dumps_text.
  repeat apply ascii_text_app; try apply flat_map_escape_ascii;
    unfold quoted, dq; repeat constructor.
Qed.

End JsonFacts.

(** ** The scanner does not run out of steps *)

Section ScannerSteps.

Lemma skip_ws_length (s : pystr) : (List.length (skip_ws s) <= List.length s)%nat.
Proof.
  induction s as [|c r IH]; [apply le_n|].
  cbn [skip_ws]. destruct (is_ws c); cbn [List.length]; lia.
Qed.

Lemma push_rest (c : N) (r : option (pystr * pystr)) (str rest : pystr) :
  push c r = Some (str, rest) -> exists str', r = Some (str', rest).
Proof.
  destruct r as [[s' rest']|]; [|discriminate].
  cbn [push]. intros [= <- <-]. now exists s'.
Qed.

Lemma scanstring_shorter_bounded (n : nat) :
  forall (s str rest : pystr),
    (List.length s <= n)%nat ->
    scanstring s = Some (str, rest) ->
    (List.length rest < List.length s)%nat.
Proof.
  induction n as [|n IH]; intros s str rest Hn H.
  { destruct s; [discriminate|cbn [List.length] in Hn; lia]. }
  assert (Step : forall c t, (List.length t <= n)%nat ->
                   push c (scanstring t) = Some (str, rest) ->
                   (List.length rest < List.length t)%nat).
  { intros c t Ht Hp. destruct (push_rest _ _ _ _ Hp) as (str' & E).
    exact (IH t str' rest Ht E). }
  destruct s as [|c r]; [discriminate|].
  cbn [scanstring] in H. cbn [List.length] in *.
  destruct (c =? 34)%N; [injection H as <- <-; lia|].
  destruct (c =? 92)%N.
  - destruct r as [|e r']; [discriminate|]. cbn [List.length] in *.
    destruct (e =? 117)%N.
    + destruct r' as [|a [|b [|c' [|d r1]]]]; try discriminate.
      cbn [List.length] in *.
      destruct (hex4 a b c' d) as [c1|]; [|discriminate].
      assert (Plain : push c1 (scanstring r1) = Some (str, rest) ->
                      (List.length rest < S (S (S (S (S (S (List.length r1)))))))%nat).
      { intros Hp. apply Step in Hp; lia. }
      destruct (is_high c1); [|now apply Plain].
      destruct r1 as [|bs [|u [|a2 [|b2 [|c2 [|d2 r2]]]]]]; try now apply Plain.
      destruct ((bs =? 92) && (u =? 117))%N%bool; [|now apply Plain].
      destruct (hex4 a2 b2 c2 d2) as [c2'|]; [|discriminate].
      destruct (is_low c2'); [|now apply Plain].
      apply Step in H; cbn [List.length] in *; lia.
    + destruct (unescape e) as [ch|]; [|discriminate].
      apply Step in H; lia.
  - destruct (c <? 32)%N; [discriminate|].
    apply Step in H; lia.
Qed.

Lemma scanstring_shorter (s str rest : pystr) :
  scanstring s = Some (str, rest) -> (List.length rest < List.length s)%nat.
Proof. apply (scanstring_shorter_bounded (List.length s)), le_n. Qed.

Lemma digits_length (s : pystr) :
  (List.length (snd (digits s)) <= List.length s)%nat.
Proof.
  induction s as [|c r IH]; [apply le_n|].
  cbn [digits]. destruct (is_digit c); [|apply le_n].
  destruct (digits r) as [ds rest]. cbn [snd List.length] in *. lia.
Qed.

Lemma strip_prefix_shorter (p s rest : pystr) :
  p <> [] -> strip_prefix p s = Some rest ->
  (List.length rest < List.length s)%nat.
Proof.
  intros Hp. revert s.
  assert (G : forall q s, strip_prefix q s = Some rest ->
                          (List.length rest <= List.length s)%nat).
  { induction q as [|a q IH]; intros s H.
    - injection H as <-. apply le_n.
    - destruct s as [|b s]; [discriminate|]. cbn [strip_prefix] in H.
      destruct (a =? b)%N; [|discriminate].
      apply IH in H. cbn [List.length]. lia. }
  destruct p as [|a q]; [contradiction|]. intros s H.
  destruct s as [|b s]; [discriminate|]. cbn [strip_prefix] in H.
  destruct (a =? b)%N; [|discriminate].
  apply G in H. cbn [List.length]. lia.
Qed.

Lemma match_frac_length (s ds rest : pystr) :
  match_frac s = Some (ds, rest) -> (List.length rest <= List.length s)%nat.
Proof.
  unfold match_frac. destruct s as [|dot [|d r]]; try discriminate.
  destruct ((dot =? 46)%N && is_digit d)%bool; [|discriminate].
  intros H. assert (E : digits (d :: r) = (ds, rest)) by congruence.
  pose proof (digits_length (d :: r)) as L. rewrite E in L.
  cbn [snd List.length] in *. lia.
Qed.

Lemma match_exp_length (s : pystr) (e : Z) (rest : pystr) :
  match_exp s = Some (e, rest) -> (List.length rest <= List.length s)%nat.
Proof.
  unfold match_exp. destruct s as [|c r]; [discriminate|].
  destruct ((c =? 101) || (c =? 69))%N%bool; [|discriminate].
  set (sg := match r with
             | [] => (false, r)
             | sg :: r' =>
               if (sg =? 45)%N then (true, r')
               else if (sg =? 43)%N then (false, r') else (false, r)
             end).
  assert (Hs : (List.length (snd sg) <= List.length r)%nat).
  { subst sg. destruct r as [|x r']; [apply le_n|].
    destruct (x =? 45)%N; [cbn; lia|]. destruct (x =? 43)%N; cbn; lia. }
  destruct sg as [neg r1]. cbn [snd] in Hs.
  pose proof (digits_length r1) as L.
  destruct (digits r1) as [[|d ds] rest']; [discriminate|].
  intros [= _ <-]. cbn [snd List.length] in *. lia.
Qed.

Lemma match_number_shorter (py : interp) (s : pystr) (v : pyobj) (rest : pystr) :
  match_number py s = Got (v, rest) -> (List.length rest < List.length s)%nat.
Proof.
  unfold match_number.
  set (sg := match s with
             | [] => (false, s)
             | c :: r => if (c =? 45)%N then (true, r) else (false, s)
             end).
  assert (Hs : (List.length (snd sg) <= List.length s)%nat).
  { subst sg. destruct s as [|c r]; [apply le_n|].
    destruct (c =? 45)%N; cbn; lia. }
  destruct sg as [neg s1]. cbn [snd] in Hs.
  set (ip := match s1 with
             | [] => None
             | d :: r =>
               if (d =? 48)%N then Some ([d], r)
               else if in_range 49 57 d then Some (digits s1) else None
             end).
  assert (Hi : forall ids r1, ip = Some (ids, r1) ->
                              (List.length r1 < List.length s1)%nat).
  { subst ip. intros ids r1. destruct s1 as [|d r]; [discriminate|].
    destruct (d =? 48)%N; [intros [= _ <-]; cbn; lia|].
    destruct (in_range 49 57 d) eqn:Ed; [|discriminate].
    intros [= E]. cbn [digits] in E.
    replace (is_digit d) with true in E
      by (symmetry; unfold is_digit, in_range in *;
          apply andb_true_iff in Ed as [A B]; apply andb_true_iff;
          split; [apply N.leb_le; apply N.leb_le in A; lia|exact B]).
    pose proof (digits_length r) as L.
    destruct (digits r) as [ds rest']. injection E as _ <-.
    cbn [snd List.length] in *. lia. }
  destruct ip as [[ids r1]|]; [|discriminate].
  specialize (Hi ids r1 eq_refl).
  set (fr := match match_frac r1 with Some p => p | None => ([], r1) end).
  assert (Hf : (List.length (snd fr) <= List.length r1)%nat).
  { subst fr. destruct (match_frac r1) as [[fds r2]|] eqn:E; [|apply le_n].
    exact (match_frac_length _ _ _ E). }
  destruct fr as [fds r2]. cbn [snd] in Hf.
  destruct (match_exp r2) as [[e r3]|] eqn:Ee.
  - intros [= _ <-]. apply match_exp_length in Ee. lia.
  - destruct fds.
    + destruct (too_many_digits py _); [discriminate|]. intros [= _ <-]. lia.
    + intros [= _ <-]. lia.
Qed.

(** What is left after a value is shorter than the text it was read from. *)
Lemma scan_rest_shorter (py : interp) (fuel : nat) :
  forall (room : nat) (s : pystr) (v : pyobj) (rest : pystr),
    (scan_once fuel room py s = Got (v, rest) ->
     (List.length rest < List.length s)%nat)
    /\ (forall acc, parse_members fuel room py acc s = Got (v, rest) ->
                   (List.length rest < List.length s)%nat)
    /\ (forall acc, parse_elements fuel room py acc s = Got (v, rest) ->
                   (List.length rest < List.length s)%nat).
Proof.
  induction fuel as [|f IH]; intros room s v rest.
  { repeat split; intros; discriminate. }
  split; [|split].
  - cbn [scan_once]. intros H.
    destruct s as [|c r]; [discriminate|].
    destruct (c =? 34)%N.
    { destruct (scanstring r) as [[str r1]|] eqn:E; [|discriminate].
      injection H as _ <-. apply scanstring_shorter in E. cbn [List.length]. lia. }
    destruct (c =? 123)%N.
    { destruct room as [|room']; [discriminate|].
      pose proof (skip_ws_length r) as L.
      destruct (skip_ws r) as [|c1 r1]; [discriminate|].
      destruct (c1 =? 125)%N.
      - injection H as _ <-. cbn [List.length] in *. lia.
      - apply (proj1 (proj2 (IH room' (c1 :: r1) v rest))) in H.
        cbn [List.length] in *. lia. }
    destruct (c =? 91)%N.
    { destruct room as [|room']; [discriminate|].
      pose proof (skip_ws_length r) as L.
      destruct (skip_ws r) as [|c1 r1]; [discriminate|].
      destruct (c1 =? 93)%N.
      - injection H as _ <-. cbn [List.length] in *. lia.
      - apply (proj2 (proj2 (IH room' (c1 :: r1) v rest))) in H.
        cbn [List.length] in *. lia. }
    repeat match type of H with
           | context [match strip_prefix ?p ?t with _ => _ end] =>
             let E := fresh "E" in
             destruct (strip_prefix p t) eqn:E;
               [injection H as _ <-;
                apply (strip_prefix_shorter p); [discriminate|exact E]|]
           end.
    exact (match_number_shorter py _ v rest H).
  - intros acc. cbn [parse_members]. intros H.
    destruct s as [|q r]; [discriminate|].
    destruct (q =? 34)%N; [|discriminate].
    destruct (scanstring r) as [[key r1]|] eqn:Ek; [|discriminate].
    apply scanstring_shorter in Ek.
    pose proof (skip_ws_length r1) as L1.
    destruct (skip_ws r1) as [|colon r2]; [discriminate|].
    destruct (colon =? 58)%N; [|discriminate].
    pose proof (skip_ws_length r2) as L2.
    destruct (scan_once f room py (skip_ws r2)) as [[v' r3]| |e'] eqn:E;
      try discriminate.
    apply (proj1 (IH room (skip_ws r2) v' r3)) in E.
    pose proof (skip_ws_length r3) as L3.
    destruct (skip_ws r3) as [|c3 r4]; [discriminate|].
    destruct (c3 =? 125)%N.
    + injection H as _ <-. cbn [List.length] in *. lia.
    + destruct (c3 =? 44)%N; [|discriminate].
      apply (proj1 (proj2 (IH room (skip_ws r4) v rest))) in H.
      pose proof (skip_ws_length r4). cbn [List.length] in *. lia.
  - intros acc. cbn [parse_elements]. intros H.
    destruct (scan_once f room py s) as [[v' r1]| |e'] eqn:E; try discriminate.
    apply (proj1 (IH room s v' r1)) in E.
    pose proof (skip_ws_length r1) as L1.
    destruct (skip_ws r1) as [|c r2]; [discriminate|].
    destruct (c =? 93)%N.
    + injection H as _ <-. cbn [List.length] in *. lia.
    + destruct (c =? 44)%N; [|discriminate].
      apply (proj2 (proj2 (IH room (skip_ws r2) v rest))) in H.
      pose proof (skip_ws_length r2). cbn [List.length] in *. lia.
Qed.

(** Two steps for each character and one more are enough: with that many
    the result no longer depends on the number of steps allowed. *)
Lemma scan_steps_enough (py : interp) (f1 : nat) :
  forall (f2 room : nat) (s : pystr),
    ((2 * List.length s + 1 <= f1)%nat -> (2 * List.length s + 1 <= f2)%nat ->
     scan_once f1 room py s = scan_once f2 room py s)
    /\ ((2 * List.length s + 2 <= f1)%nat -> (2 * List.length s + 2 <= f2)%nat ->
        forall acc, parse_members f1 room py acc s = parse_members f2 room py acc s)
    /\ ((2 * List.length s + 2 <= f1)%nat -> (2 * List.length s + 2 <= f2)%nat ->
        forall acc, parse_elements f1 room py acc s = parse_elements f2 room py acc s).
Proof.
  induction f1 as [|f1 IH]; intros f2 room s.
  { repeat split; intros H; lia. }
  split; [|split]; intros H1 H2; (destruct f2 as [|f2]; [lia|]).
  - cbn [scan_once].
    destruct s as [|c r]; [reflexivity|]. cbn [List.length] in *.
    destruct (c =? 34)%N; [reflexivity|].
    destruct (c =? 123)%N.
    { destruct room as [|room']; [reflexivity|].
      pose proof (skip_ws_length r) as L.
      destruct (skip_ws r) as [|c1 r1]; [reflexivity|].
      destruct (c1 =? 125)%N; [reflexivity|].
      apply (proj1 (proj2 (IH f2 room' (c1 :: r1)))); cbn [List.length] in *; lia. }
    destruct (c =? 91)%N.
    { destruct room as [|room']; [reflexivity|].
      pose proof (skip_ws_length r) as L.
      destruct (skip_ws r) as [|c1 r1]; [reflexivity|].
      destruct (c1 =? 93)%N; [reflexivity|].
      apply (proj2 (proj2 (IH f2 room' (c1 :: r1)))); cbn [List.length] in *; lia. }
    reflexivity.
  - intros acc. cbn [parse_members].
    destruct s as [|q r]; [reflexivity|]. cbn [List.length] in *.
    destruct (q =? 34)%N; [|reflexivity].
    destruct (scanstring r) as [[key r1]|] eqn:Ek; [|reflexivity].
    apply scanstring_shorter in Ek.
    pose proof (skip_ws_length r1) as L1.
    destruct (skip_ws r1) as [|colon r2]; [reflexivity|].
    destruct (colon =? 58)%N; [|reflexivity].
    pose proof (skip_ws_length r2) as L2. cbn [List.length] in *.
    rewrite (proj1 (IH f2 room (skip_ws r2))) by lia.
    destruct (scan_once f2 room py (skip_ws r2)) as [[v r3]| |e] eqn:E;
      try reflexivity.
    apply (proj1 (scan_rest_shorter py f2 room (skip_ws r2) v r3)) in E.
    pose proof (skip_ws_length r3) as L3.
    destruct (skip_ws r3) as [|c3 r4]; [reflexivity|].
    destruct (c3 =? 125)%N; [reflexivity|].
    destruct (c3 =? 44)%N; [|reflexivity].
    pose proof (skip_ws_length r4) as L4. cbn [List.length] in *.
    apply (proj1 (proj2 (IH f2 room (skip_ws r4)))); lia.
  - intros acc. cbn [parse_elements].
    rewrite (proj1 (IH f2 room s)) by lia.
    destruct (scan_once f2 room py s) as [[v r1]| |e] eqn:E; try reflexivity.
    apply (proj1 (scan_rest_shorter py f2 room s v r1)) in E.
    pose proof (skip_ws_length r1) as L1.
    destruct (skip_ws r1) as [|c r2]; [reflexivity|].
    destruct (c =? 93)%N; [reflexivity|].
    destruct (c =? 44)%N; [|reflexivity].
    pose proof (skip_ws_length r2) as L2. cbn [List.length] in *.
    apply (proj2 (proj2 (IH f2 room (skip_ws r2)))); lia.
Qed.

(** [loads] gives the scanner steps enough: more would not change what it
    makes of any text. *)
Lemma loads_steps_enough (py : interp) (s : pystr) (more : nat) :
  scan_once (List.length s + List.length s + 2 + more) (Pos.to_nat (nesting py))
            py (skip_ws s)
  = scan_once (List.length s + List.length s + 2) (Pos.to_nat (nesting py))
              py (skip_ws s).
Proof.
  pose proof (skip_ws_length s) as L.
  apply (proj1 (scan_steps_enough py _ _ _ (skip_ws s))); lia.
Qed.

End ScannerSteps.

(** ** The receive loop and the handler *)

Section WorkerFacts.

(** With more turns than chunks the loop reaches the end of the stream: it
    returns every chunk in order at end-of-file and raises on a reset. *)
Lemma recv_loop_total (fuel : nat) :
  forall (conn : socket) (chunks : list bytes),
    (List.length (inbox conn) < fuel)%nat ->
    recv_loop fuel conn chunks =
    Some (match at_end conn with
          | Eof => Ok (chunks ++ List.map chunk_bytes (inbox conn))
          | Reset => Raise (OSError "Connection reset by peer")
          end, drained conn).
Proof.
  induction fuel as [|f IH]; intros [ib e sn cl] chunks Hlt; [inversion Hlt|].
  cbn [recv_loop]. unfold recv. cbn [inbox at_end sent closed] in *.
  destruct ib as [|data rest].
  - destruct e; cbn; rewrite ?app_nil_r; reflexivity.
  - cbn [chunk_bytes]. rewrite IH by (cbn in *; lia).
    cbn. rewrite <- app_assoc. reflexivity.
Qed.

(** [handle_client] always ends, and what it does is [process] on the
    chunks received, unless the stream was reset. *)
Lemma handle_client_run (py : interp) (conn : socket) (col : collection)
  (now : datetime) :
  handle_client py conn col now =
  Some (match at_end conn with
        | Eof =>
          (fst (process py (List.map chunk_bytes (inbox conn)) now col),
           close (drained conn),
           snd (process py (List.map chunk_bytes (inbox conn)) now col))
        | Reset =>
          (Uncaught (OSError "Connection reset by peer"), close (drained conn), col)
        end).
Proof.
  unfold handle_client, handle_client_fuel, enough.
  rewrite recv_loop_total by lia.
  destruct (at_end conn); [|reflexivity].
  cbn [app]. destruct (process py _ now col); reflexivity.
Qed.

(** A payload that is empty or that [json.loads] refuses is read as the
    empty dict. *)
Lemma decode_payload_malformed (py : interp) (raw : pystr) :
  raw = [] \/ loads py raw = Rejected -> decode_payload py raw = Ok (PDict []).
Proof.
  intros [->|H]; [reflexivity|].
  unfold decode_payload. destruct raw; [reflexivity|]. now rewrite H.
Qed.

(** [process] either stops on an exception before the insert, or makes one
    [insert_one] call with the record it built and returns. *)
Lemma process_cases (py : interp) (chunks : list bytes) (now : datetime)
  (col : collection) :
  let built :=
    bind (decode_payload py (decode (List.concat chunks))) (make_doc now) in
  (exists e, built = Raise e
             /\ process py chunks now col = (Uncaught e, col))
  \/ (exists doc, built = Ok doc
                  /\ process py chunks now col = (Returned, snd (insert_one col doc))).
Proof.
  intros built. unfold process. fold built.
  destruct built as [doc|e].
  - right. exists doc. split; [reflexivity|].
    destruct (insert_one col doc) as [[[]|e] col']; reflexivity.
  - left. exists e. split; reflexivity.
Qed.

(** The record [make_doc] builds, when it builds one. *)
Lemma make_doc_ok (now : datetime) (doc_in : pyobj) (doc : document) :
  make_doc now doc_in = Ok doc ->
  exists username message,
    field doc_in (lit "username") = Ok username
    /\ field doc_in (lit "message") = Ok message
    /\ doc = [(lit "date", str_datetime now); (lit "username", username);
              (lit "message", message)].
Proof.
  unfold make_doc. intros H.
  destruct (field doc_in (lit "username")) as [u|]; [|discriminate].
  destruct (field doc_in (lit "message")) as [m|]; [|discriminate].
  cbn in H. injection H as <-. now exists u, m.
Qed.

(** What a field of the record can be: the trimmed string stored under the
    key, or the empty string when the key is absent or its value is falsy. *)
Lemma field_ok (doc_in : pyobj) (key value : pystr) :
  field doc_in key = Ok value ->
  exists d, doc_in = PDict d
    /\ ((exists s, Dict.get d key = Some (PStr s) /\ value = strip s)
        \/ (Dict.get d key = None /\ value = [])
        \/ (exists v, Dict.get d key = Some v /\ truthy v = false /\ value = [])).
Proof.
  unfold field, py_get. destruct doc_in as [| | | | |l|d]; try discriminate.
  intros H. exists d. split; [reflexivity|].
  destruct (Dict.get d key) as [v|] eqn:G; cbn in H.
  - unfold or_empty in H. destruct (truthy v) eqn:T.
    + destruct v; try discriminate. cbn in H. injection H as <-.
      left. now exists s.
    + cbn in H. injection H as <-. right; right. now exists v.
  - injection H as <-. right; left. split; reflexivity.
Qed.

Lemma insert_one_docs (col : collection) (doc : document) :
  docs (snd (insert_one col doc)) = docs col
  \/ docs (snd (insert_one col doc)) = docs col ++ [doc].
Proof.
  unfold insert_one. destruct (fault col (calls col)); cbn; auto.
Qed.

Lemma insert_one_calls (col : collection) (doc : document) :
  calls (snd (insert_one col doc)) = S (calls col).
Proof.
  unfold insert_one. destruct (fault col (calls col)); reflexivity.
Qed.

End WorkerFacts.

(** ** The ingest worker's contract *)

Lemma submitted_field (py : interp) (raw : pystr) (doc_in : pyobj)
  (key value : pystr) :
  decode_payload py raw = Ok doc_in ->
  field doc_in key = Ok value -> value = submitted py raw key.
Proof.
  intros Hd H. destruct (field_ok _ _ _ H) as (d & -> & Hcases).
  unfold submitted. unfold decode_payload in Hd.
  destruct raw as [|c r].
  - injection Hd as <-. cbn.
    destruct Hcases as [(s & G & _)|[(_ & ->)|(v & G & _)]];
      [discriminate G|reflexivity|discriminate G].
  - destruct (loads py (c :: r)) as [v| |e] eqn:L.
    + injection Hd as ->.
      destruct Hcases as [(s & G & ->)|[(G & ->)|(v & G & T & ->)]];
        rewrite G; try reflexivity.
      destruct v; try reflexivity. destruct s; [reflexivity|discriminate T].
    + injection Hd as <-.
      destruct Hcases as [(s & G & _)|[(_ & ->)|(v & G & _)]];
        [discriminate G|reflexivity|discriminate G].
    + discriminate Hd.
Qed.

Lemma app_one_neq {A} (l : list A) (x : A) : l <> l ++ [x].
Proof.
  intros H. apply (f_equal (@List.length A)) in H.
  rewrite length_app in H. cbn in H. lia.
Qed.

(** The document built from a payload, when one is built. *)
Lemma built_record_for (py : interp) (raw : pystr) (now : datetime) (doc : document) :
  bind (decode_payload py raw) (make_doc now) = Ok doc ->
  doc = record_for py raw now.
Proof.
  intros M. destruct (decode_payload py raw) as [doc_in|e] eqn:D; [|discriminate M].
  cbn [bind] in M.
  destruct (make_doc_ok _ _ _ M) as (u & m & Fu & Fm & ->).
  unfold record_for.
  now rewrite (submitted_field py raw doc_in _ _ D Fu),
              (submitted_field py raw doc_in _ _ D Fm).
Qed.

(** The only document a handler can add is the one the specification
    describes for its payload. *)
Lemma handler_adds_record_for (py : interp) (conn : socket) (col : collection)
  (now : datetime) (res : thread_end) (conn' : socket) (col' : collection)
  (doc : document) :
  handle_client py conn col now = Some (res, conn', col') ->
  docs col' = docs col ++ [doc] ->
  doc = record_for py (decode (received conn)) now.
Proof.
  rewrite handle_client_run. intros H Hdocs.
  destruct (at_end conn).
  - injection H as _ _ <-.
    destruct (process_cases py (List.map chunk_bytes (inbox conn)) now col)
      as [(e & _ & P)|(built & M & P)]; rewrite P in Hdocs; cbn [snd] in Hdocs.
    + now apply app_one_neq in Hdocs.
    + destruct (insert_one_docs col built) as [E|E]; rewrite E in Hdocs.
      * now apply app_one_neq in Hdocs.
      * apply app_inv_head in Hdocs. injection Hdocs as <-.
        exact (built_record_for py _ now built M).
  - injection H as _ _ <-. now apply app_one_neq in Hdocs.
Qed.

(** C1. A Record persisted by the ingest worker has exactly the three fields
    [date], [username] and [message], in that order: [date] is the string of
    the clock reading made by the handler, whatever the payload holds, and
    [username] and [message] are the trimmed values found in the payload of
    that one connection, or the empty string when the key is absent or the
    payload is malformed. *)
Theorem C1_persisted_record
  (py : interp) (conn : socket) (col : collection) (now : datetime)
  (res : thread_end) (conn' : socket) (col' : collection) (doc : document) :
  handle_client py conn col now = Some (res, conn', col') ->
  docs col' = docs col ++ [doc] ->
  Dict.keys doc = [lit "date"; lit "username"; lit "message"]
  /\ Dict.get doc (lit "date") = Some (str_datetime now)
  /\ Dict.get doc (lit "username")
     = Some (submitted py (decode (received conn)) (lit "username"))
  /\ Dict.get doc (lit "message")
     = Some (submitted py (decode (received conn)) (lit "message")).
Proof.
  intros H Hdocs.
  rewrite (handler_adds_record_for _ _ _ _ _ _ _ _ H Hdocs).
  repeat split.
Qed.

Lemma C1_persisted_record_witness :
  handle_client cpython (peer rich_payload) col0 t0
  = Some (Returned, close (drained (peer rich_payload)),
          {| docs := [alice_doc]; calls := 1; fault := fault col0 |})
  /\ Dict.keys alice_doc = [lit "date"; lit "username"; lit "message"]
  /\ Dict.get alice_doc (lit "date") = Some (str_datetime t0)
  /\ Dict.get alice_doc (lit "username")
     = Some (submitted cpython (decode (received (peer rich_payload))) (lit "username"))
  /\ Dict.get alice_doc (lit "message")
     = Some (submitted cpython (decode (received (peer rich_payload))) (lit "message")).
Proof.
  split; [vm_compute; reflexivity|].
  apply (C1_persisted_record cpython (peer rich_payload) col0 t0 Returned
           (close (drained (peer rich_payload)))
           {| docs := [alice_doc]; calls := 1; fault := fault col0 |} alice_doc).
  - vm_compute; reflexivity.
  - reflexivity.
Defined.




(** The scanner stops at the first container it has no room for, wherever
    that is in the text. *)
Example deep_nesting_any_room :
  loads {| nesting := 1500; max_str_digits := 4300 |} (decode deep_payload)
  = Failed RecursionError
  /\ loads {| nesting := 1999; max_str_digits := 4300 |} (decode deep_payload)
     = Failed RecursionError
  /\ loads {| nesting := 2000; max_str_digits := 4300 |} (decode deep_payload)
     = Rejected.
Proof. repeat split; vm_compute; reflexivity. Qed.



(** A handler run does not depend on the outcome of the insert, except for
    the contents of the collection. *)
Lemma run_regardless_of_fault (py : interp) (conn : socket) (col : collection)
  (now : datetime) (f : nat -> option string) :
  exists res conn' col1 col2,
    handle_client py conn col now = Some (res, conn', col1)
    /\ handle_client py conn (with_fault col f) now = Some (res, conn', col2)
    /\ calls col1 = calls col2
    /\ (calls col1 = calls col \/ (calls col1 = S (calls col) /\ res = Returned))
    /\ (fault col (calls col) <> None -> docs col1 = docs col).
Proof.
  rewrite !handle_client_run.
  destruct (at_end conn).
  - destruct (process_cases py (List.map chunk_bytes (inbox conn)) now col)
      as [(e & M & P)|(built & M & P)];
    destruct (process_cases py (List.map chunk_bytes (inbox conn)) now (with_fault col f))
      as [(e' & M' & P')|(built' & M' & P')];
    rewrite M in M'; try discriminate; injection M' as <-; rewrite P, P'; cbn [fst snd].
    + do 4 eexists. repeat split; auto.
    + do 4 eexists. split; [reflexivity|]. split; [reflexivity|].
      split; [now rewrite !insert_one_calls|].
      split; [right; split; [apply insert_one_calls|reflexivity]|].
      intros Hf. unfold insert_one.
      destruct (fault col (calls col)); [reflexivity|contradiction].
  - do 4 eexists. repeat split; auto.
Qed.

(** C5. When [insert_one] fails, the failure is discarded: the handler makes
    no second call, no exception leaves it, the collection is unchanged, and
    the thread and the connection end exactly as they do when the insert
    succeeds. *)
Theorem C5_insert_failure_discarded
  (py : interp) (conn : socket) (col : collection) (now : datetime) (msg : string) :
  fault col (calls col) = Some msg ->
  exists res conn' col_failed col_stored,
    handle_client py conn col now = Some (res, conn', col_failed)
    /\ handle_client py conn (with_fault col (fun _ => None)) now
       = Some (res, conn', col_stored)
    /\ docs col_failed = docs col
    /\ calls col_failed = calls col_stored
    /\ (calls col_failed = calls col
        \/ (calls col_failed = S (calls col) /\ res = Returned)).
Proof.
  intros Hf.
  destruct (run_regardless_of_fault py conn col now (fun _ => None))
    as (res & conn' & col1 & col2 & H1 & H2 & Hc & Hr & Hd).
  exists res, conn', col1, col2.
  repeat split; try assumption.
  apply Hd. rewrite Hf. discriminate.
Qed.

Lemma C5_insert_failure_discarded_witness :
  exists res conn' col_failed col_stored,
    handle_client cpython (peer rich_payload) col_down t0 = Some (res, conn', col_failed)
    /\ handle_client cpython (peer rich_payload) (with_fault col_down (fun _ => None)) t0
       = Some (res, conn', col_stored)
    /\ docs col_failed = docs col_down
    /\ calls col_failed = calls col_stored
    /\ (calls col_failed = calls col_down
        \/ (calls col_failed = S (calls col_down) /\ res = Returned)).
Proof.
  apply (C5_insert_failure_discarded cpython (peer rich_payload) col_down t0
           "server selection timeout"%string).
  reflexivity.
Defined.

Example insert_failure_run :
  handle_client cpython (peer rich_payload) col_down t0
  = Some (Returned, close (drained (peer rich_payload)),
          {| docs := []; calls := 1; fault := fault col_down |}).
Proof. vm_compute. reflexivity. Qed.

(** A payload that is JSON but not an object, or whose field is a number,
    stops the handler with [AttributeError] before any insert. *)
Example array_payload_uncaught :
  handle_client cpython (peer (blit "[1, 2]")) col0 t0
  = Some (Uncaught AttributeError, close (drained (peer (blit "[1, 2]"))), col0).
Proof. vm_compute. reflexivity. Qed.

Example null_field_is_empty :
  option_map (fun r => docs (snd r))
    (handle_client cpython (peer (List.map byte_of
       (lit "{" ++ quoted "username" ++ lit ": null, "
        ++ quoted "message" ++ lit ": 0.0}"))) col0 t0)
  = Some [empty_doc t0].
Proof. vm_compute. reflexivity. Qed.

(** C8. On every accepted connection the worker reads the peer's stream to
    its end, writes nothing back and leaves the connection closed, whether
    the Record is stored, the payload does not decode, the insert fails, or
    an exception stops the handler. *)
Theorem C8_no_response_then_close
  (py : interp) (conn : socket) (col : collection) (now : datetime) :
  exists res conn' col',
    handle_client py conn col now = Some (res, conn', col')
    /\ inbox conn' = []
    /\ sent conn' = sent conn
    /\ closed conn' = true.
Proof.
  rewrite handle_client_run.
  destruct (at_end conn); do 3 eexists; repeat split.
Qed.

(** ** The front door's routing *)

Lemma pystr_eqb_eq (a b : pystr) : pystr_eqb a b = true <-> a = b.
Proof.
  unfold pystr_eqb. destruct (list_eq_dec N.eq_dec a b); split; congruence.
Qed.

Lemma pystr_eqb_refl (a : pystr) : pystr_eqb a a = true.
Proof. now apply pystr_eqb_eq. Qed.

Lemma pystr_eqb_neq (a b : pystr) : a <> b -> pystr_eqb a b = false.
Proof.
  intros H. destruct (pystr_eqb a b) eqn:E; [|reflexivity].
  apply pystr_eqb_eq in E. contradiction.
Qed.

(** [do_GET] follows the routing table; a path outside it, or a file that is
    not there, gets the not-found response; a file that cannot be read lets
    the exception out. *)
Lemma do_GET_route (st : site) (req : request) :
  do_GET st req =
  match route (path req) with
  | Some (f, ct) =>
    match files st f with
    | File data => (page 200 ct data, Ok tt)
    | Absent => _respond_404 st
    | Unreadable reason => ([], Raise (OSError reason))
    end
  | None => _respond_404 st
  end.
Proof.
  unfold do_GET, route.
  destruct (pystr_eqb (path req) (lit "/")); cbn [orb].
  { unfold _respond_file. destruct (files st (lit "index.html")); reflexivity. }
  destruct (pystr_eqb (path req) (lit "/index.html")).
  { unfold _respond_file. destruct (files st (lit "index.html")); reflexivity. }
  destruct (pystr_eqb (path req) (lit "/message.html")).
  { unfold _respond_file. destruct (files st (lit "message.html")); reflexivity. }
  destruct (pystr_eqb (path req) (lit "/style.css")).
  { unfold _respond_file. destruct (files st (lit "static/style.css")); reflexivity. }
  destruct (pystr_eqb (path req) (lit "/logo.png")).
  { unfold _respond_file. destruct (files st (lit "static/logo.png")); reflexivity. }
  reflexivity.
Qed.

(** C6. [GET] of [/], [/index.html], [/message.html], [/style.css] and
    [/logo.png] serves the file behind the path, when it is there, with
    status 200 and its content type; every other [GET] path, and every [POST]
    to a path other than [/message], gets the not-found response, which is
    [error.html] with status 404 when that file exists and the built-in 404
    page otherwise. *)
Theorem C6_routing (py : interp) (st : site) (req : request) (net : network) :
  (route (lit "/") = Some (lit "index.html", lit "text/html; charset=utf-8")
   /\ route (lit "/index.html") = Some (lit "index.html", lit "text/html; charset=utf-8")
   /\ route (lit "/message.html")
      = Some (lit "message.html", lit "text/html; charset=utf-8")
   /\ route (lit "/style.css")
      = Some (lit "static/style.css", lit "text/css; charset=utf-8")
   /\ route (lit "/logo.png") = Some (lit "static/logo.png", lit "image/png"))
  /\ (forall f ct data,
        route (path req) = Some (f, ct) -> files st f = File data ->
        do_GET st req = (page 200 ct data, Ok tt))
  /\ (route (path req) = None -> do_GET st req = _respond_404 st)
  /\ (path req <> lit "/message" -> do_POST py st req net = (_respond_404 st, net))
  /\ (forall body,
        files st (lit "error.html") = File body ->
        _respond_404 st = (page 404 (lit "text/html; charset=utf-8") body, Ok tt))
  /\ (files st (lit "error.html") = Absent ->
      _respond_404 st = ([send_error 404 (lit "Not Found")], Ok tt)).
Proof.
  split; [repeat split|].
  split.
  { intros f ct data Hr Hf. rewrite do_GET_route, Hr, Hf. reflexivity. }
  split.
  { intros Hr. rewrite do_GET_route, Hr. reflexivity. }
  split.
  { intros Hp. unfold do_POST. rewrite (pystr_eqb_neq _ _ Hp). reflexivity. }
  split.
  { intros body Hf. unfold _respond_404. rewrite Hf. reflexivity. }
  intros Hf. unfold _respond_404. rewrite Hf. reflexivity.
Qed.

Lemma C6_routing_witness :
  do_GET full (get "/")
  = (page 200 (lit "text/html; charset=utf-8") (blit "hello"), Ok tt)
  /\ do_GET full (get "/nowhere") = _respond_404 full
  /\ do_POST cpython full (get "/") (net0 Delivered)
     = (_respond_404 full, net0 Delivered)
  /\ _respond_404 full
     = (page 404 (lit "text/html; charset=utf-8") (blit "lost"), Ok tt)
  /\ _respond_404 bare = ([send_error 404 (lit "Not Found")], Ok tt).
Proof.
  destruct (C6_routing cpython full (get "/") (net0 Delivered))
    as (_ & Hget & _ & Hpost & Hcustom & _).
  destruct (C6_routing cpython full (get "/nowhere") (net0 Delivered))
    as (_ & _ & Hother & _).
  destruct (C6_routing cpython bare (get "/") (net0 Delivered))
    as (_ & _ & _ & _ & _ & Hbuiltin).
  split; [eapply Hget; reflexivity|].
  split; [apply Hother; reflexivity|].
  split; [apply Hpost; discriminate|].
  split; [apply Hcustom; reflexivity|].
  apply Hbuiltin; reflexivity.
Defined.

(** ** The form parser *)

Section FormFacts.

Lemma get_add_value (d : Dict.dict (list pystr)) (n v key : pystr) :
  Dict.get (add_value d n v) key =
  if pystr_eqb n key
  then Some (match Dict.get d key with Some old => old ++ [v] | None => [v] end)
  else Dict.get d key.
Proof.
  induction d as [|[k vs] r IH]; cbn [add_value Dict.get].
  - destruct (pystr_eqb n key); reflexivity.
  - destruct (pystr_eqb k n) eqn:Ekn; cbn [Dict.get].
    + apply pystr_eqb_eq in Ekn. subst k.
      destruct (pystr_eqb n key); reflexivity.
    + destruct (pystr_eqb k key) eqn:Ekk.
      * apply pystr_eqb_eq in Ekk. subst k.
        rewrite (pystr_eqb_neq n key); [reflexivity|].
        intros ->. now rewrite pystr_eqb_refl in Ekn.
      * exact IH.
Qed.

(** The values [parse_qs] collects under a key are the values of the pairs
    of that name, in order, after those already there. *)
Lemma get_fold_add_value (pairs : list (pystr * pystr)) :
  forall (d : Dict.dict (list pystr)) (key : pystr),
    Dict.get (fold_left (fun d nv => add_value d (fst nv) (snd nv)) pairs d) key =
    match List.map snd (filter (fun nv => pystr_eqb (fst nv) key) pairs) with
    | [] => Dict.get d key
    | vs => Some (match Dict.get d key with Some old => old ++ vs | None => vs end)
    end.
Proof.
  induction pairs as [|[n v] r IH]; intros d key; [reflexivity|].
  cbn [fold_left filter fst snd]. rewrite IH, get_add_value.
  destruct (pystr_eqb n key); cbn [List.map snd].
  - destruct (List.map snd (filter _ r)) as [|w ws]; destruct (Dict.get d key);
      rewrite <- ?app_assoc; reflexivity.
  - reflexivity.
Qed.

Lemma map_filter_flat_map {A B C} (f : A -> list B) (p : B -> bool) (g : B -> C)
  (l : list A) :
  List.map g (filter p (flat_map f l))
  = flat_map (fun x => List.map g (filter p (f x))) l.
Proof.
  induction l as [|x l IH]; [reflexivity|].
  cbn [flat_map]. now rewrite filter_app, map_app, IH.
Qed.

Lemma filled_value_parse_field (key name_value : pystr) :
  List.map snd (filter (fun nv => pystr_eqb (fst nv) key) (parse_field name_value))
  = filled_value key name_value.
Proof.
  unfold parse_field, filled_value.
  destruct name_value as [|c r]; [reflexivity|].
  destruct (split1 61 (c :: r)) as [[n v]|]; [|reflexivity].
  destruct v as [|x v]; [reflexivity|].
  cbn [filter fst]. destruct (pystr_eqb _ key); reflexivity.
Qed.

(** [form.get(key, [""])[0]] is the first non-empty value of the key in the
    body, or the empty string. *)
Lemma first_value_parse_qs (body key : pystr) :
  first_value (parse_qs body) key = Ok (hd [] (filled_values body key)).
Proof.
  unfold first_value, parse_qs, parse_qsl. rewrite get_fold_add_value.
  rewrite map_filter_flat_map.
  rewrite (flat_map_ext _ (filled_value key))
    by (intros; apply filled_value_parse_field).
  fold (filled_values body key).
  destruct (filled_values body key); reflexivity.
Qed.

End FormFacts.

(** ** The payload built by [do_POST] *)

Section PayloadFacts.
Local Open Scope N_scope.

(** The serialized submission always encodes, one byte per character. *)
Lemma encode_dumps (username message : pystr) :
  encode (dumps (submission username message)) = Some (wire username message).
Proof. apply encode_ascii, dumps_ascii. Qed.

(** The worker decodes the bytes of a submission to the text that was
    serialized. *)
Lemma decode_wire (username message : pystr) :
  decode (wire username message) = dumps (submission username message).
Proof. apply decode_ascii, dumps_ascii. Qed.





Lemma rfile_read_announced (n : Z) (stream : bytes) :
  (-1 <= n)%Z -> rfile_read n stream = Ok (announced n stream).
Proof.
  intros Hn. unfold rfile_read, announced.
  replace (n <? -1)%Z with false by (symmetry; apply Z.ltb_ge; exact Hn).
  destruct (n <? 0)%Z; reflexivity.
Qed.


(** What [do_POST] builds once the length of the body is known. *)
Lemma build_payload_ok (py : interp) (req : request) (n : Z) :
  py_int py (header_get (headers req) (lit "Content-Length") (lit "0")) = Some n ->
  (-1 <= n)%Z ->
  build_payload py req
  = Ok (wire (first_filled (decode (announced n (rfile req))) (lit "username"))
             (first_filled (decode (announced n (rfile req))) (lit "message"))).
Proof.
  intros Hn Hpos. unfold build_payload. rewrite Hn.
  rewrite (rfile_read_announced n _ Hpos). cbn [bind].
  rewrite !first_value_parse_qs. cbn [bind].
  rewrite encode_dumps. reflexivity.
Qed.


Lemma header_get_absent (req : request) (name failobj : pystr) :
  has_header req name = false ->
  header_get (headers req) name failobj = failobj.
Proof.
  unfold has_header. induction (headers req) as [|[k v] r IH]; [reflexivity|].
  cbn [existsb header_get fst]. intros H.
  apply orb_false_iff in H as [H1 H2]. rewrite H1. apply IH, H2.
Qed.

Lemma one_digit_converts (py : interp) : too_many_digits py 1 = false.
Proof.
  unfold too_many_digits. destruct (0 <? max_str_digits py) eqn:E; [|reflexivity].
  apply N.ltb_lt in E. cbn [andb]. apply N.ltb_ge. cbn. lia.
Qed.

Lemma py_int_zero (py : interp) : py_int py (lit "0") = Some 0%Z.
Proof.
  unfold py_int. cbn. now rewrite one_digit_converts.
Qed.

(** Without a [Content-Length] header nothing is read and both fields are
    empty. *)
Lemma build_payload_no_length (py : interp) (req : request) :
  has_header req (lit "Content-Length") = false ->
  build_payload py req = Ok empty_payload.
Proof.
  intros H.
  rewrite (build_payload_ok py req 0).
  - reflexivity.
  - rewrite header_get_absent by exact H. apply py_int_zero.
  - lia.
Qed.

(** [do_POST] on [/message] once the payload is built. *)
Lemma do_POST_message (py : interp) (st : site) (req : request) (net : network)
  (payload : bytes) :
  path req = lit "/message" ->
  build_payload py req = Ok payload ->
  do_POST py st req net =
  match connect_and_send net payload with
  | (Raise e, net') => (error_500 e, net')
  | (Ok _, net') => (redirect_home, Ok tt, net')
  end.
Proof.
  intros Hp Hb. unfold do_POST. rewrite Hp, Hb. reflexivity.
Qed.

End PayloadFacts.

(** The form of a request that repeats a key, the first time without value. *)
Example blank_first_value :
  all_values (lit "username=&username=bob") (lit "username") = [[]; lit "bob"]
  /\ filled_values (lit "username=&username=bob") (lit "username") = [lit "bob"].
Proof. split; reflexivity. Qed.




(** How [int] and [rfile.read] take a [Content-Length]: a length below [-1]
    and a value closed by the separator U+001C stop the handler, white space
    and a sign are accepted, and [-1] reads the stream to its end. *)
Example content_length_readings :
  build_payload cpython (post_length "-2" "username=Alice") = Raise ValueError
  /\ py_int cpython (lit "14" ++ [28%N]) = None
  /\ py_int cpython (lit " +1_4 ") = Some 14%Z
  /\ py_int cpython (lit "1__4") = None
  /\ build_payload cpython (post_length "-1" "username=Alice")
     = Ok (wire (lit "Alice") []).
Proof. repeat split; vm_compute; reflexivity. Qed.

(** ** The link and the two processes together *)

Section LinkFacts.

Lemma chop_fuel_concat (fuel k : nat) :
  forall b : bytes,
    (List.length b <= fuel)%nat ->
    List.concat (List.map chunk_bytes (chop_fuel fuel k b)) = b.
Proof.
  induction fuel as [|f IH]; intros b Hlen.
  - destruct b; [reflexivity|cbn in Hlen; lia].
  - destruct b as [|x t]; [reflexivity|].
    cbn [chop_fuel List.map List.concat chunk_bytes fst snd app].
    rewrite IH.
    + now rewrite firstn_skipn.
    + rewrite length_skipn. cbn in Hlen. lia.
Qed.

(** Whatever the size of the pieces, the worker receives the bytes that
    were delivered. *)
Lemma received_arriving (net : network) (b : bytes) (e : ending) :
  received (arriving net b e) = b.
Proof.
  unfold received, arriving, chop. cbn [inbox].
  apply chop_fuel_concat. lia.
Qed.

(** The worker's field for a key holding a string. *)
Lemma field_string (d : list (pystr * pyobj)) (key s : pystr) :
  Dict.get d key = Some (PStr s) -> field (PDict d) key = Ok (strip s).
Proof.
  intros G. unfold field, py_get. rewrite G. cbn [bind].
  unfold or_empty. destruct s; reflexivity.
Qed.

Lemma decode_payload_loads (py : interp) (raw : pystr) (v : pyobj) :
  raw <> [] -> loads py raw = Got v -> decode_payload py raw = Ok v.
Proof.
  intros Hne H. unfold decode_payload. destruct raw; [contradiction|].
  now rewrite H.
Qed.

Lemma dumps_filled (d : Dict.dict pystr) : dumps d <> [].
Proof. unfold dumps. discriminate. Qed.

(** The record the worker builds from the bytes of a submission. *)
Lemma process_wire (py : interp) (chunks : list bytes) (now : datetime)
  (col : collection) (a b : pystr) :
  scalar_text a -> scalar_text b ->
  List.concat chunks = wire a b ->
  process py chunks now col
  = (Returned,
     snd (insert_one col [(lit "date", str_datetime now);
                          (lit "username", strip a); (lit "message", strip b)])).
Proof.
  intros Ha Hb Hw. unfold process. rewrite Hw, decode_wire.
  rewrite (decode_payload_loads py _ _ (dumps_filled _) (loads_dumps py a b Ha Hb)).
  cbn [bind]. unfold make_doc.
  rewrite (field_string _ (lit "username") a) by reflexivity.
  rewrite (field_string _ (lit "message") b) by reflexivity.
  cbn [bind].
  destruct (insert_one col _) as [[[]|e] col']; reflexivity.
Qed.

Lemma handle_client_wire (py : interp) (conn : socket) (col : collection)
  (now : datetime) (a b : pystr) :
  scalar_text a -> scalar_text b ->
  at_end conn = Eof ->
  received conn = wire a b ->
  handle_client py conn col now
  = Some (Returned, close (drained conn),
          snd (insert_one col [(lit "date", str_datetime now);
                               (lit "username", strip a); (lit "message", strip b)])).
Proof.
  intros Ha Hb He Hr. rewrite handle_client_run, He.
  rewrite (process_wire py _ now col a b Ha Hb Hr). reflexivity.
Qed.

End LinkFacts.

(** ** The outcome of the relay *)

Section RelayFacts.

(** The body of the 500 response is the text naming the failure. *)
Lemma error_500_text (reason : string) :
  exists data,
    decode data = lit "Socket server error: " ++ lit reason
    /\ error_500 (OSError reason) = (error_page data, Ok tt).
Proof.
  destruct (decode_encode_low (lit "Socket server error: " ++ lit reason))
    as (data & He & Hd).
  { apply Forall_app; split; apply lit_low. }
  exists data. split; [exact Hd|].
  unfold error_500. rewrite He. reflexivity.
Qed.

Lemma connect_and_send_dials (net : network) (payload : bytes) :
  dials (snd (connect_and_send net payload)) = S (dials net).
Proof.
  unfold connect_and_send. destruct (fate_of net (dials net)); reflexivity.
Qed.

Lemma do_POST_dials (py : interp) (st : site) (req : request) (net : network)
  (payload : bytes) :
  path req = lit "/message" -> build_payload py req = Ok payload ->
  dials (snd (do_POST py st req net)) = S (dials net).
Proof.
  intros Hp Hb. rewrite (do_POST_message py st req net payload Hp Hb).
  rewrite <- (connect_and_send_dials net payload).
  destruct (connect_and_send net payload) as [[[]|e] net']; cbn [snd];
    [reflexivity|].
  destruct (error_500 e); reflexivity.
Qed.

(** A refused connection: the 500 response, and nothing reaches the worker. *)
Lemma do_POST_refused (py : interp) (st : site) (req : request) (net : network)
  (payload : bytes) (reason : string) :
  path req = lit "/message" -> build_payload py req = Ok payload ->
  fate_of net (dials net) = Refused reason ->
  do_POST py st req net
  = (error_500 (OSError reason),
     {| dials := S (dials net); fate_of := fate_of net; piece := piece net;
        accepted := accepted net |}).
Proof.
  intros Hp Hb Hf. rewrite (do_POST_message py st req net payload Hp Hb).
  unfold connect_and_send. rewrite Hf. reflexivity.
Qed.

Lemma do_POST_broken (py : interp) (st : site) (req : request) (net : network)
  (payload : bytes) (reason : string) (k : nat) (e : ending) :
  path req = lit "/message" -> build_payload py req = Ok payload ->
  fate_of net (dials net) = Broken reason k e ->
  do_POST py st req net
  = (error_500 (OSError reason),
     {| dials := S (dials net); fate_of := fate_of net; piece := piece net;
        accepted := accepted net ++ [arriving net (firstn k payload) e] |}).
Proof.
  intros Hp Hb Hf. rewrite (do_POST_message py st req net payload Hp Hb).
  unfold connect_and_send. rewrite Hf. reflexivity.
Qed.

Lemma do_POST_delivered (py : interp) (st : site) (req : request) (net : network)
  (payload : bytes) :
  path req = lit "/message" -> build_payload py req = Ok payload ->
  fate_of net (dials net) = Delivered ->
  do_POST py st req net
  = (redirect_home, Ok tt,
     {| dials := S (dials net); fate_of := fate_of net; piece := piece net;
        accepted := accepted net ++ [arriving net payload Eof] |}).
Proof.
  intros Hp Hb Hf. rewrite (do_POST_message py st req net payload Hp Hb).
  unfold connect_and_send. rewrite Hf. reflexivity.
Qed.

End RelayFacts.

(** C3, as stated, fails: when [sendall] fails after the connection was
    established, the client gets the 500 response and the worker, reading the
    truncated payload to the end of the stream, still writes a Record (with
    both fields empty). *)
Lemma C3_record_after_failed_send_counterexample :
  exists data ends col',
    submit cpython bare (post_form "username=Alice&message=hello")
           (net0 (Broken "timed out" 12 Eof)) col0 clock0
    = Some (error_page data, Ok tt, ends, col')
    /\ decode data = lit "Socket server error: timed out"
    /\ docs col' = [empty_doc t0]
    /\ docs col' <> docs col0.
Proof.
  do 3 eexists. split; [vm_compute; reflexivity|].
  split; [reflexivity|]. split; [reflexivity|]. discriminate.
Qed.

(** C3, amended. For a [POST] to [/message]: when the relay succeeds the
    response is the 302 redirect to [/]; when the connection or the
    transmission fails the response is 500 with a plain-text body naming the
    failure; either way one connection attempt is made and no more; and when
    the connection itself fails nothing reaches the worker, so no Record is
    written for the request. *)
Theorem C3_relay_outcome
  (py : interp) (st : site) (req : request) (net : network) (payload : bytes)
  (col : collection) (clock : nat -> datetime) :
  path req = lit "/message" ->
  build_payload py req = Ok payload ->
  (fate_of net (dials net) = Delivered ->
   fst (do_POST py st req net) = (redirect_home, Ok tt))
  /\ (forall reason,
        (fate_of net (dials net) = Refused reason
         \/ exists k e, fate_of net (dials net) = Broken reason k e) ->
        exists data,
          decode data = lit "Socket server error: " ++ lit reason
          /\ fst (do_POST py st req net) = (error_page data, Ok tt))
  /\ dials (snd (do_POST py st req net)) = S (dials net)
  /\ (forall reason,
        fate_of net (dials net) = Refused reason ->
        accepted (snd (do_POST py st req net)) = accepted net
        /\ exists evs, submit py st req net col clock = Some (evs, Ok tt, [], col)).
Proof.
  intros Hp Hb.
  split.
  { intros Hf. now rewrite (do_POST_delivered py st req net payload Hp Hb Hf). }
  split.
  { intros reason [Hf|(k & e & Hf)];
      destruct (error_500_text reason) as (data & Hd & He); exists data;
      (split; [exact Hd|]).
    - now rewrite (do_POST_refused py st req net payload reason Hp Hb Hf), He.
    - now rewrite (do_POST_broken py st req net payload reason k e Hp Hb Hf), He. }
  split; [apply (do_POST_dials py st req net payload Hp Hb)|].
  intros reason Hf.
  pose proof (do_POST_refused py st req net payload reason Hp Hb Hf) as Hpost.
  split; [now rewrite Hpost|].
  destruct (error_500_text reason) as (data & _ & He).
  exists (error_page data). unfold submit. rewrite Hpost, He.
  cbn [accepted]. rewrite skipn_all. reflexivity.
Qed.

Lemma C3_relay_outcome_witness :
  exists data,
    decode data = lit "Socket server error: refused"
    /\ submit cpython bare (post_form "username=Alice&message=hello")
              (net0 (Refused "refused")) col0 clock0
       = Some (error_page data, Ok tt, [], col0).
Proof.
  destruct (C3_relay_outcome cpython bare (post_form "username=Alice&message=hello")
              (net0 (Refused "refused")) (wire (lit "Alice") (lit "hello"))
              col0 clock0) as (_ & Herr & _ & Hnone).
  - reflexivity.
  - vm_compute. reflexivity.
  - destruct (Herr "refused"%string) as (data & Hd & Hpost);
      [left; reflexivity|].
    exists data. split; [exact Hd|].
    destruct (Hnone "refused"%string eq_refl) as (_ & evs & Hs).
    rewrite Hs. unfold submit in Hs.
    destruct (do_POST cpython bare (post_form "username=Alice&message=hello")
                (net0 (Refused "refused"))) as [[evs' res'] net'] eqn:E.
    cbn [fst] in Hpost. injection Hpost as -> ->.
    destruct (socket_server _ _ clock0 0 col0) as [[ends col']|]; [|discriminate].
    injection Hs as <- _ _. reflexivity.
Defined.

(** ** Text at the front door is well formed *)

Section ScalarFacts.
Local Open Scope N_scope.

Lemma is_scalar_intro (c : N) :
  c < 0x110000 -> c < 0xD800 \/ 0xDFFF < c -> is_scalar c = true.
Proof.
  intros H1 H2. unfold is_scalar, is_surrogate.
  apply andb_true_iff. split; [apply N.ltb_lt; exact H1|].
  apply negb_true_iff, andb_false_iff.
  destruct H2 as [H2|H2]; [left|right]; apply N.leb_gt; lia.
Qed.

Ltac to_props :=
  unfold second3_ok, second4_ok, is_cont, in_range in *;
  repeat match goal with
         | H : context [if ?c then _ else _] |- _ => destruct c eqn:?
         | H : andb _ _ = true |- _ => apply andb_true_iff in H as [? ?]
         | H : (_ <? _) = true |- _ => apply N.ltb_lt in H
         | H : (_ <? _) = false |- _ => apply N.ltb_ge in H
         | H : (_ <=? _) = true |- _ => apply N.leb_le in H
         | H : (_ =? _) = true |- _ => apply N.eqb_eq in H
         | H : (_ =? _) = false |- _ => apply N.eqb_neq in H
         end.

(** Decoding with replacement yields Unicode scalar values only: never a
    surrogate, never a value above U+10FFFF. *)
Lemma decode_scalar_bounded (n : nat) :
  forall bs : bytes, (List.length bs <= n)%nat -> scalar_text (decode bs).
Proof.
  induction n as [|n IH]; intros bs Hlen.
  { destruct bs; [constructor|cbn in Hlen; lia]. }
  destruct bs as [|b0 r0]; [constructor|].
  cbn [decode]. cbn [List.length] in Hlen.
  pose proof (bv_bounded b0) as B0.
  repeat match goal with
         | |- scalar_text (if ?c then _ else _) => destruct c eqn:?
         | |- scalar_text (match ?l with [] => _ | _ :: _ => _ end) =>
           let b := fresh "b" in
           destruct l as [|b ?];
           [|pose proof (bv_bounded b); cbn [List.length] in Hlen]
         end;
    try (repeat constructor; fail);
    (constructor; [|apply IH; cbn [List.length]; lia]);
    try reflexivity;
    to_props; apply is_scalar_intro; lia.
Qed.

Lemma decode_scalar (bs : bytes) : scalar_text (decode bs).
Proof. apply (decode_scalar_bounded (List.length bs)). lia. Qed.

End ScalarFacts.

Section FrontDoorText.
Local Open Scope N_scope.

Lemma unquote_parts_scalar (s : pystr) :
  forall run, scalar_text s -> scalar_text (unquote_parts run s).
Proof.
  induction s as [|c r IH]; intros run Hs; cbn [unquote_parts].
  - apply decode_scalar.
  - inversion Hs as [|? ? Hc Hr]; subst.
    destruct (is_ascii c); [apply IH, Hr|].
    apply Forall_app. split; [apply decode_scalar|].
    constructor; [exact Hc|apply IH, Hr].
Qed.

Lemma unquote_scalar (s : pystr) : scalar_text s -> scalar_text (unquote s).
Proof.
  intros Hs. unfold unquote.
  destruct (existsb (N.eqb 37) s); [apply unquote_parts_scalar, Hs|exact Hs].
Qed.

Lemma plus_to_space_scalar (s : pystr) :
  scalar_text s -> scalar_text (plus_to_space s).
Proof.
  unfold plus_to_space. induction 1 as [|c r Hc Hr IH]; [constructor|].
  cbn [List.map]. constructor; [|exact IH].
  destruct (c =? 43); [reflexivity|exact Hc].
Qed.

Lemma split1_scalar (sep : N) (s a b : pystr) :
  scalar_text s -> split1 sep s = Some (a, b) -> scalar_text a /\ scalar_text b.
Proof.
  intros Hs. revert a b.
  induction Hs as [|c r Hc Hr IH]; intros a b H; [discriminate|].
  cbn [split1] in H. destruct (c =? sep).
  - injection H as <- <-. split; [constructor|exact Hr].
  - destruct (split1 sep r) as [[a' b']|]; [|discriminate].
    injection H as <- <-. destruct (IH a' b' eq_refl) as [Ha Hb].
    split; [constructor; assumption|exact Hb].
Qed.

Lemma split_scalar (sep : N) (s : pystr) :
  scalar_text s -> Forall scalar_text (split sep s).
Proof.
  induction 1 as [|c r Hc Hr IH]; [repeat constructor|].
  cbn [split]. destruct (c =? sep).
  - constructor; [constructor|exact IH].
  - destruct (split sep r) as [|p ps]; [repeat constructor; exact Hc|].
    inversion IH; subst. constructor; [constructor; assumption|assumption].
Qed.

Lemma filled_value_scalar (key nv : pystr) :
  scalar_text nv -> Forall scalar_text (filled_value key nv).
Proof.
  intros Hs. unfold filled_value.
  destruct (split1 61 nv) as [[n v]|] eqn:E; [|constructor].
  destruct (split1_scalar 61 nv n v Hs E) as [_ Hv].
  destruct v as [|c v]; [constructor|].
  destruct (pystr_eqb _ key); [|constructor].
  repeat constructor. apply unquote_scalar, plus_to_space_scalar, Hv.
Qed.

Lemma filled_values_scalar (body key : pystr) :
  scalar_text body -> Forall scalar_text (filled_values body key).
Proof.
  intros Hs. unfold filled_values.
  pose proof (split_scalar 38 body Hs) as Hall.
  induction Hall as [|p ps Hp Hps IH]; [constructor|].
  cbn [flat_map]. apply Forall_app. split; [apply filled_value_scalar, Hp|exact IH].
Qed.

Lemma first_value_scalar (raw : bytes) (key : pystr) :
  scalar_text (hd [] (filled_values (decode raw) key)).
Proof.
  pose proof (filled_values_scalar (decode raw) key (decode_scalar raw)) as H.
  destruct H; [constructor|assumption].
Qed.




End FrontDoorText.

Example alice_end_to_end :
  submit cpython bare (post_form "username=++Alice+&message=+hi+there+") (net0 Delivered)
         col0 clock0
  = Some (redirect_home, Ok tt,
          [(Returned,
            close (drained (arriving (net0 Delivered)
                                     (wire (lit "Alice") (lit "hi there")) Eof)))],
          {| docs := [alice_doc]; calls := 1; fault := fault col0 |}).
Proof. vm_compute. reflexivity. Qed.

Example no_message_field :
  option_map (fun r => docs (snd r))
    (submit cpython bare (post_form "username=Alice") (net0 Delivered) col0 clock0)
  = Some [[(lit "date", str_datetime t0); (lit "username", lit "Alice");
           (lit "message", [])]].
Proof. vm_compute. reflexivity. Qed.

(** ** The pipeline from the form to the Record *)

(** C9. A [POST] to [/message] without [Content-Length] header is read as
    having an empty body: both fields are empty, the payload of the empty
    submission is relayed all the same, and when the worker takes the
    connection the answer is the 302 redirect and the worker receives that
    payload. *)
Theorem C9_no_content_length
  (py : interp) (st : site) (req : request) (net : network) :
  path req = lit "/message" ->
  has_header req (lit "Content-Length") = false ->
  rfile_read 0 (rfile req) = Ok []
  /\ build_payload py req = Ok empty_payload
  /\ decode empty_payload
     = lit "{" ++ quoted "username" ++ lit ": " ++ quoted ""
       ++ lit ", " ++ quoted "message" ++ lit ": " ++ quoted "" ++ lit "}"
  /\ (fate_of net (dials net) = Delivered ->
      do_POST py st req net
      = (redirect_home, Ok tt,
         {| dials := S (dials net); fate_of := fate_of net; piece := piece net;
            accepted := accepted net ++ [arriving net empty_payload Eof] |})
      /\ received (arriving net empty_payload Eof) = empty_payload).
Proof.
  intros Hp Hh.
  assert (Hb : build_payload py req = Ok empty_payload)
    by (apply build_payload_no_length, Hh).
  split; [reflexivity|]. split; [exact Hb|]. split; [reflexivity|].
  intros Hf. split; [|apply received_arriving].
  apply (do_POST_delivered py st req net empty_payload Hp Hb Hf).
Qed.

Lemma C9_no_content_length_witness :
  build_payload cpython (post_bare "username=Alice&message=hello") = Ok empty_payload
  /\ fst (do_POST cpython bare (post_bare "username=Alice&message=hello")
                  (net0 Delivered))
     = (redirect_home, Ok tt).
Proof.
  destruct (C9_no_content_length cpython bare
              (post_bare "username=Alice&message=hello")
              (net0 Delivered)) as (_ & Hb & _ & Hpost).
  - reflexivity.
  - reflexivity.
  - split; [exact Hb|]. destruct (Hpost eq_refl) as [-> _]. reflexivity.
Defined.

Example no_length_end_to_end :
  option_map (fun r => docs (snd r))
    (submit cpython bare (post_bare "username=Alice&message=hello") (net0 Delivered)
            col0 clock0)
  = Some [empty_doc t0].
Proof. vm_compute. reflexivity. Qed.

(** C7. The wire format round-trips.  Every field the front door extracts
    from a request is well-formed text; and for well-formed [u] and [m], the
    bytes the front door sends for their trims are read by the worker as a
    Record whose [username] is the trim of [u] and whose [message] is the
    trim of [m].  The worker's own trim changes nothing, since trimming is
    idempotent. *)
Theorem C7_wire_roundtrip
  (py : interp) (u m : pystr) (net : network) (col : collection) (now : datetime) :
  scalar_text u -> scalar_text m ->
  let payload := wire (strip u) (strip m) in
  let conn := arriving net payload Eof in
  (forall (raw : bytes) (key : pystr),
      scalar_text (hd [] (filled_values (decode raw) key)))
  /\ encode (dumps (submission (strip u) (strip m))) = Some payload
  /\ received conn = payload
  /\ decode_payload py (decode (received conn))
     = Ok (PDict [(lit "username", PStr (strip u)); (lit "message", PStr (strip m))])
  /\ handle_client py conn col now
     = Some (Returned, close (drained conn),
             snd (insert_one col [(lit "date", str_datetime now);
                                  (lit "username", strip u);
                                  (lit "message", strip m)]))
  /\ strip (strip u) = strip u
  /\ strip (strip m) = strip m.
Proof.
  intros Hu Hm payload conn.
  assert (Hsu : scalar_text (strip u)) by (apply strip_Forall, Hu).
  assert (Hsm : scalar_text (strip m)) by (apply strip_Forall, Hm).
  assert (Hr : received conn = payload) by apply received_arriving.
  split; [intros raw key; apply first_value_scalar|].
  split; [apply encode_dumps|]. split; [exact Hr|].
  split.
  { rewrite Hr. unfold payload. rewrite decode_wire.
    apply decode_payload_loads; [apply dumps_filled|apply loads_dumps; assumption]. }
  split.
  { rewrite (handle_client_wire py conn col now (strip u) (strip m) Hsu Hsm eq_refl Hr).
    now rewrite !strip_idempotent. }
  split; apply strip_idempotent.
Qed.

Lemma C7_wire_roundtrip_witness :
  handle_client cpython
                (arriving (net0 Delivered) (wire (lit "Alice") (lit "hi there")) Eof)
                col0 t0
  = Some (Returned,
          close (drained (arriving (net0 Delivered)
                                   (wire (lit "Alice") (lit "hi there")) Eof)),
          snd (insert_one col0 alice_doc)).
Proof.
  destruct (C7_wire_roundtrip cpython (lit "  Alice ") (lit " hi there ")
              (net0 Delivered) col0 t0) as (_ & _ & _ & _ & H & _).
  - unfold scalar_text. repeat constructor.
  - unfold scalar_text. repeat constructor.
  - exact H.
Defined.

(** A string holding a surrogate pair as two code points is not well-formed
    text, and does not survive the wire format: the pair comes back as one
    code point.  No request can put such a string into a field. *)
Example surrogate_pair_joined :
  loads cpython (dumps (submission [0xD83D; 0xDE00]%N []))
  = Got (PDict [(lit "username", PStr [0x1F600%N]); (lit "message", PStr [])]).
Proof. vm_compute. reflexivity. Qed.

(** ** Several connections, one after the other *)

Section ServerFacts.

Lemma insert_one_healthy (col : collection) (doc : document) :
  (forall i, fault col i = None) ->
  docs (snd (insert_one col doc)) = docs col ++ [doc]
  /\ (forall i, fault (snd (insert_one col doc)) i = None).
Proof.
  intros H. unfold insert_one. rewrite H. cbn. split; [reflexivity|exact H].
Qed.

(** Handled one after the other on a collection that accepts every insert,
    the connections of a list of submissions leave one Record each, in the
    order in which they were handled: none is lost, none is stored twice. *)
Lemma socket_server_one_record_each (py : interp) (net : network)
  (clock : nat -> datetime) (subs : list (pystr * pystr)) :
  forall (k : nat) (col : collection),
    (forall i, fault col i = None) ->
    Forall (fun p => scalar_text (fst p) /\ scalar_text (snd p)) subs ->
    exists ends col',
      socket_server py
        (List.map (fun p => arriving net (wire (fst p) (snd p)) Eof) subs)
        clock k col = Some (ends, col')
      /\ Forall (fun e => fst e = Returned) ends
      /\ List.map fields_of (docs col')
         = List.map fields_of (docs col)
           ++ List.map (fun p => (Some (strip (fst p)), Some (strip (snd p)))) subs.
Proof.
  induction subs as [|[a b] rest IH]; intros k col Hfault Hall.
  - exists [], col. cbn. rewrite app_nil_r. repeat split. constructor.
  - inversion Hall as [|? ? [Ha Hb] Hrest]; subst. cbn [fst snd] in Ha, Hb.
    cbn [List.map socket_server fst snd].
    rewrite (handle_client_wire py (arriving net (wire a b) Eof) col (clock k) a b
               Ha Hb eq_refl (received_arriving net (wire a b) Eof)).
    destruct (insert_one_healthy col
                [(lit "date", str_datetime (clock k));
                 (lit "username", strip a); (lit "message", strip b)] Hfault)
      as [Hdocs Hfault'].
    destruct (IH (S k) _ Hfault' Hrest) as (ends & col' & Hrun & Hends & Hfields).
    rewrite Hrun. do 2 eexists. split; [reflexivity|].
    split; [constructor; [reflexivity|exact Hends]|].
    rewrite Hfields, Hdocs, map_app, <- app_assoc. reflexivity.
Qed.

End ServerFacts.

(** * Further properties of the code *)

(** ** [handle_client] *)

Section HandlerFacts.

Lemma process_concat (py : interp) (a b : list bytes) (now : datetime)
  (col : collection) :
  List.concat a = List.concat b -> process py a now col = process py b now col.
Proof. intros H. unfold process. now rewrite H. Qed.

Lemma field_dict (d : list (pystr * pyobj)) (key : pystr) :
  field (PDict d) key =
  if bad_field d key then Raise AttributeError
  else Ok (match Dict.get d key with Some (PStr s) => strip s | _ => [] end).
Proof.
  unfold field, py_get, bad_field, or_empty.
  destruct (Dict.get d key) as [v|]; [|reflexivity].
  cbn [bind]. destruct v as [|b|z|f|s|l|d']; cbn [truthy].
  - reflexivity.
  - destruct b; reflexivity.
  - destruct (negb (z =? 0)%Z); reflexivity.
  - destruct (negb (float_is_zero f)); reflexivity.
  - destruct s; reflexivity.
  - destruct l; reflexivity.
  - destruct d'; reflexivity.
Qed.

Lemma make_doc_unusable (now : datetime) (doc_in : pyobj) :
  unusable doc_in = true -> make_doc now doc_in = Raise AttributeError.
Proof.
  unfold make_doc. destruct doc_in as [| | | | | |d]; try reflexivity.
  cbn [unusable]. rewrite !field_dict. intros H.
  destruct (bad_field d (lit "username")); [reflexivity|].
  cbn [orb] in H. rewrite H. reflexivity.
Qed.

Lemma make_doc_usable (py : interp) (now : datetime) (raw : pystr)
  (doc_in : pyobj) :
  decode_payload py raw = Ok doc_in ->
  unusable doc_in = false ->
  make_doc now doc_in = Ok (record_for py raw now).
Proof.
  intros D H.
  assert (M : exists doc, make_doc now doc_in = Ok doc).
  { unfold make_doc. destruct doc_in as [| | | | | |d]; try discriminate.
    cbn [unusable] in H. apply orb_false_iff in H as [Hu Hm].
    rewrite !field_dict, Hu, Hm. cbn [bind]. eexists. reflexivity. }
  destruct M as (doc & M). rewrite M. f_equal.
  apply (built_record_for py raw now doc). now rewrite D.
Qed.

(** The scanner lets two exceptions through: [RecursionError] from the
    guard of the containers and [ValueError] from [int]. *)
Lemma match_number_failed (py : interp) (s : pystr) (e : exn) :
  match_number py s = Failed e -> e = ValueError.
Proof.
  unfold match_number. intros H.
  repeat match type of H with
         | context [match ?x with _ => _ end] => destruct x
         | context [if ?x then _ else _] => destruct x
         | context [let (_, _) := ?x in _] => destruct x
         end; try discriminate; now injection H as <-.
Qed.

Lemma scan_failed (py : interp) (fuel : nat) :
  forall (room : nat) (s : pystr) (e : exn),
    (scan_once fuel room py s = Failed e -> e = RecursionError \/ e = ValueError)
    /\ (forall acc, parse_members fuel room py acc s = Failed e ->
                   e = RecursionError \/ e = ValueError)
    /\ (forall acc, parse_elements fuel room py acc s = Failed e ->
                   e = RecursionError \/ e = ValueError).
Proof.
  induction fuel as [|f IH]; intros room s e.
  { repeat split; intros; discriminate. }
  split; [|split].
  - cbn [scan_once]. intros H.
    destruct s as [|c r]; [discriminate|].
    destruct (c =? 34)%N.
    { destruct (scanstring r) as [[? ?]|]; discriminate. }
    destruct (c =? 123)%N.
    { destruct room as [|room']; [left; now injection H as <-|].
      destruct (skip_ws r) as [|c1 r1]; [discriminate|].
      destruct (c1 =? 125)%N; [discriminate|].
      exact (proj1 (proj2 (IH room' (c1 :: r1) e)) _ H). }
    destruct (c =? 91)%N.
    { destruct room as [|room']; [left; now injection H as <-|].
      destruct (skip_ws r) as [|c1 r1]; [discriminate|].
      destruct (c1 =? 93)%N; [discriminate|].
      exact (proj2 (proj2 (IH room' (c1 :: r1) e)) _ H). }
    repeat match type of H with
           | context [match strip_prefix ?p ?t with _ => _ end] =>
             destruct (strip_prefix p t); [discriminate|]
           end.
    right. exact (match_number_failed py _ e H).
  - intros acc. cbn [parse_members]. intros H.
    destruct s as [|q r]; [discriminate|].
    destruct (q =? 34)%N; [|discriminate].
    destruct (scanstring r) as [[key r1]|]; [|discriminate].
    destruct (skip_ws r1) as [|colon r2]; [discriminate|].
    destruct (colon =? 58)%N; [|discriminate].
    destruct (scan_once f room py (skip_ws r2)) as [[v r3]| |e'] eqn:E;
      [|discriminate|].
    + destruct (skip_ws r3) as [|c3 r4]; [discriminate|].
      destruct (c3 =? 125)%N; [discriminate|].
      destruct (c3 =? 44)%N; [|discriminate].
      exact (proj1 (proj2 (IH room (skip_ws r4) e)) _ H).
    + injection H as <-. exact (proj1 (IH room (skip_ws r2) e') E).
  - intros acc. cbn [parse_elements]. intros H.
    destruct (scan_once f room py s) as [[v r1]| |e'] eqn:E; [|discriminate|].
    + destruct (skip_ws r1) as [|c r2]; [discriminate|].
      destruct (c =? 93)%N; [discriminate|].
      destruct (c =? 44)%N; [|discriminate].
      exact (proj2 (proj2 (IH room (skip_ws r2) e)) _ H).
    + injection H as <-. exact (proj1 (IH room s e') E).
Qed.

Lemma loads_failed (py : interp) (s : pystr) (e : exn) :
  loads py s = Failed e -> e = RecursionError \/ e = ValueError.
Proof.
  unfold loads.
  assert (G : forall fuel room t,
             match scan_once fuel room py t with
             | Got (v, rest) =>
               match skip_ws rest with [] => Got v | _ :: _ => Rejected end
             | Rejected => Rejected
             | Failed e' => Failed e'
             end = Failed e -> e = RecursionError \/ e = ValueError).
  { intros fuel room t G.
    destruct (scan_once fuel room py t) as [[v rest]| |e'] eqn:E.
    - destruct (skip_ws rest); discriminate.
    - discriminate.
    - injection G as <-. exact (proj1 (scan_failed py fuel room t e') E). }
  set (body := match scan_once _ _ py (skip_ws s) with
               | Got (v, rest) => _ | Rejected => _ | Failed e' => _ end).
  assert (B : body = Failed e -> e = RecursionError \/ e = ValueError)
    by apply G.
  clearbody body.
  destruct s as [|c r]; [exact B|].
  destruct c as [|p]; [exact B|].
  repeat (destruct p as [p|p|]; try exact B); discriminate.
Qed.

(** The ways a handler ends once the stream is read to its end. *)
Lemma handle_client_eof (py : interp) (conn : socket) (col : collection)
  (now : datetime) :
  at_end conn = Eof ->
  handle_client py conn col now =
  Some (match decode_payload py (decode (received conn)) with
        | Raise e => (Uncaught e, close (drained conn), col)
        | Ok doc_in =>
          if unusable doc_in
          then (Uncaught AttributeError, close (drained conn), col)
          else (Returned, close (drained conn),
                snd (insert_one col (record_for py (decode (received conn)) now)))
        end).
Proof.
  intros He. rewrite handle_client_run, He. unfold process. fold (received conn).
  destruct (decode_payload py (decode (received conn))) as [doc_in|e] eqn:D;
    [|reflexivity].
  cbn [bind]. destruct (unusable doc_in) eqn:U.
  - now rewrite (make_doc_unusable now _ U).
  - rewrite (make_doc_usable py now _ doc_in D U).
    destruct (insert_one col _) as [[[]|e] col']; reflexivity.
Qed.

Lemma handle_client_reset (py : interp) (conn : socket) (col : collection)
  (now : datetime) :
  at_end conn = Reset ->
  handle_client py conn col now
  = Some (Uncaught (OSError "Connection reset by peer"), close (drained conn), col).
Proof. intros He. now rewrite handle_client_run, He. Qed.

(** When [decode_payload] raises, it is [json.loads] that did. *)
Lemma decode_payload_raise (py : interp) (raw : pystr) (e : exn) :
  decode_payload py raw = Raise e -> loads py raw = Failed e.
Proof.
  unfold decode_payload. destruct raw; [discriminate|].
  destruct (loads py _); try discriminate. now intros [= ->].
Qed.

Lemma lstrip_head (s : pystr) (c : N) (r : pystr) :
  lstrip s = c :: r -> is_space c = false.
Proof.
  induction s as [|x s IH]; cbn [lstrip]; [discriminate|].
  destruct (is_space x) eqn:E; [exact IH|].
  intros H. injection H as <- _. exact E.
Qed.

Lemma strip_head (s : pystr) (c : N) (r : pystr) :
  strip s = c :: r -> is_space c = false.
Proof.
  unfold strip. rewrite <- lstrip_rstrip. apply lstrip_head.
Qed.

Lemma strip_last (s : pystr) (c : N) (r : pystr) :
  strip s = r ++ [c] -> is_space c = false.
Proof.
  unfold strip, rstrip. intros H.
  apply (f_equal (@rev N)) in H. rewrite rev_involutive, rev_app_distr in H.
  cbn [rev app] in H. exact (lstrip_head _ _ _ H).
Qed.

End HandlerFacts.

(** X1. What a handler does depends on the bytes of the stream, not on how
    [recv] cut them: two connections that carry the same bytes and end the
    same way leave the same thread end and the same collection. *)
Theorem X1_chunking_irrelevant
  (py : interp) (c1 c2 : socket) (col : collection) (now : datetime) :
  received c1 = received c2 ->
  at_end c1 = at_end c2 ->
  exists res k1 k2 col',
    handle_client py c1 col now = Some (res, k1, col')
    /\ handle_client py c2 col now = Some (res, k2, col').
Proof.
  intros Hr He. rewrite !handle_client_run, <- He.
  rewrite (process_concat py (List.map chunk_bytes (inbox c2))
                          (List.map chunk_bytes (inbox c1)) now col)
    by (symmetry; exact Hr).
  destruct (at_end c1); do 4 eexists; split; reflexivity.
Qed.

Lemma X1_chunking_irrelevant_witness :
  exists res k1 k2 col',
    handle_client cpython (peer rich_payload) col0 t0 = Some (res, k1, col')
    /\ handle_client cpython (arriving (net0 Delivered) rich_payload Eof) col0 t0
       = Some (res, k2, col').
Proof.
  apply (X1_chunking_irrelevant cpython (peer rich_payload)
           (arriving (net0 Delivered) rich_payload Eof) col0 t0).
  - vm_compute. reflexivity.
  - reflexivity.
Defined.

(** X2. When the connection is reset while the handler is receiving, the
    exception leaves the handler: whatever had arrived is dropped, no insert
    is made, and the connection is closed all the same. *)
Theorem X2_reset_stores_nothing
  (py : interp) (conn : socket) (col : collection) (now : datetime) :
  at_end conn = Reset ->
  exists e conn',
    handle_client py conn col now = Some (Uncaught e, conn', col)
    /\ closed conn' = true
    /\ sent conn' = sent conn.
Proof.
  intros He. rewrite (handle_client_reset py conn col now He).
  do 2 eexists. repeat split.
Qed.

Lemma X2_reset_stores_nothing_witness :
  exists e conn',
    handle_client cpython (arriving (net0 Delivered) rich_payload Reset) col0 t0
    = Some (Uncaught e, conn', col0)
    /\ closed conn' = true
    /\ sent conn' = sent (arriving (net0 Delivered) rich_payload Reset).
Proof.
  apply (X2_reset_stores_nothing cpython
           (arriving (net0 Delivered) rich_payload Reset) col0 t0).
  reflexivity.
Defined.

(** X3. A handler calls [insert_one] at most once and only ever appends: the
    documents already stored stay as they are, in place, and at most one is
    added behind them. *)
Theorem X3_at_most_one_insert
  (py : interp) (conn : socket) (col : collection) (now : datetime) :
  exists res conn' col' added,
    handle_client py conn col now = Some (res, conn', col')
    /\ docs col' = docs col ++ added
    /\ (List.length added <= 1)%nat
    /\ (calls col' = calls col \/ calls col' = S (calls col))
    /\ (calls col' = calls col -> added = []).
Proof.
  rewrite handle_client_run. destruct (at_end conn).
  - destruct (process_cases py (List.map chunk_bytes (inbox conn)) now col)
      as [(e & _ & P)|(built & _ & P)]; rewrite P; cbn [fst snd].
    + exists (Uncaught e), (close (drained conn)), col, [].
      rewrite app_nil_r. repeat split; auto.
    + unfold insert_one. destruct (fault col (calls col)); cbn [snd].
      * do 3 eexists. exists []. cbn [docs calls]. rewrite app_nil_r.
        repeat split; auto.
      * do 3 eexists. exists [built]. cbn [docs calls List.length].
        split; [reflexivity|]. split; [reflexivity|]. split; [lia|].
        split; [right; reflexivity|]. intros H. exfalso.
        apply (n_Sn (calls col)). symmetry. exact H.
  - do 3 eexists. exists []. rewrite app_nil_r. repeat split; auto.
Qed.

(** X4. Once the stream is read to its end the handler has three outcomes
    and no other.  If [json.loads] raises something else than
    [JSONDecodeError], which can only be [RecursionError] (containers nested
    beyond the room of the interpreter) or [ValueError] (an integer beyond
    the digit limit), that exception leaves the handler and [insert_one] is
    not called.  If the payload is JSON but not an object, or [username] or
    [message] holds a truthy value that is not a string, [AttributeError]
    leaves the handler and [insert_one] is not called.  In every other case
    (also for a payload that is empty or that [json.loads] refuses) the
    handler returns after one [insert_one] call with the Record of the
    payload. *)
Theorem X4_handler_outcomes
  (py : interp) (conn : socket) (col : collection) (now : datetime) :
  at_end conn = Eof ->
  let raw := decode (received conn) in
  (forall e, decode_payload py raw = Raise e ->
     loads py raw = Failed e
     /\ (e = RecursionError \/ e = ValueError)
     /\ handle_client py conn col now = Some (Uncaught e, close (drained conn), col))
  /\ (forall doc_in, decode_payload py raw = Ok doc_in -> unusable doc_in = true ->
       handle_client py conn col now
       = Some (Uncaught AttributeError, close (drained conn), col))
  /\ (forall doc_in, decode_payload py raw = Ok doc_in -> unusable doc_in = false ->
       handle_client py conn col now
       = Some (Returned, close (drained conn),
               snd (insert_one col (record_for py raw now))))
  /\ (raw = [] \/ loads py raw = Rejected ->
      decode_payload py raw = Ok (PDict []) /\ unusable (PDict []) = false)
  /\ (forall e, raw <> [] -> loads py raw = Failed e -> decode_payload py raw = Raise e).
Proof.
  intros He raw. pose proof (handle_client_eof py conn col now He) as H.
  fold raw in H.
  split.
  { intros e D. rewrite D in H.
    pose proof (decode_payload_raise py raw e D) as L.
    split; [exact L|]. split; [exact (loads_failed py raw e L)|exact H]. }
  split; [intros doc_in D U; now rewrite D, U in H|].
  split; [intros doc_in D U; now rewrite D, U in H|].
  split.
  { intros Hbad. split; [exact (decode_payload_malformed py raw Hbad)|reflexivity]. }
  intros e Hne L. unfold decode_payload. destruct raw; [contradiction|].
  now rewrite L.
Qed.

Lemma X4_handler_outcomes_witness :
  handle_client cpython (peer (blit "[1, 2]")) col0 t0
  = Some (Uncaught AttributeError, close (drained (peer (blit "[1, 2]"))), col0).
Proof.
  destruct (X4_handler_outcomes cpython (peer (blit "[1, 2]")) col0 t0)
    as (_ & H & _).
  - reflexivity.
  - apply (H (PList [PInt 1; PInt 2])); vm_compute; reflexivity.
Defined.

(** An integer of 4301 digits is JSON, and [json.loads] raises [ValueError]
    on it: the handler is stopped; with 4300 digits the payload is read, and
    being a number, not an object, it stops the handler all the same. *)
Example long_integer_payload :
  handle_client cpython (peer (List.repeat Byte.x31 4301)) col0 t0
  = Some (Uncaught ValueError, close (drained (peer (List.repeat Byte.x31 4301))), col0)
  /\ handle_client cpython (peer (List.repeat Byte.x31 4300)) col0 t0
     = Some (Uncaught AttributeError,
             close (drained (peer (List.repeat Byte.x31 4300))), col0).
Proof. split; vm_compute; reflexivity. Qed.

(** X5. The [username] and [message] of a Record a handler stores are
    trimmed: trimming them again changes nothing, and neither starts nor ends
    with a white-space character. *)
Theorem X5_stored_fields_trimmed
  (py : interp) (conn : socket) (col : collection) (now : datetime)
  (res : thread_end) (conn' : socket) (col' : collection)
  (doc : document) (key value : pystr) :
  handle_client py conn col now = Some (res, conn', col') ->
  docs col' = docs col ++ [doc] ->
  key = lit "username" \/ key = lit "message" ->
  Dict.get doc key = Some value ->
  strip value = value
  /\ (forall c r, value = c :: r -> is_space c = false)
  /\ (forall c r, value = r ++ [c] -> is_space c = false).
Proof.
  intros H Hdocs Hkey Hget.
  rewrite (handler_adds_record_for _ _ _ _ _ _ _ _ H Hdocs) in Hget.
  assert (Hv : exists s, value = strip s).
  { unfold record_for in Hget.
    assert (E : value = submitted py (decode (received conn)) key).
    { destruct Hkey as [-> | ->]; cbn in Hget; now injection Hget as <-. }
    rewrite E. unfold submitted.
    destruct (loads py _) as [[| | | | | |d]| |]; try (now exists []).
    destruct (Dict.get d key) as [[| | | |s| |]|]; try (now exists []).
    now exists s. }
  destruct Hv as (s & ->).
  split; [apply strip_idempotent|].
  split; intros c r E; [exact (strip_head _ _ _ E)|exact (strip_last _ _ _ E)].
Qed.

Lemma X5_stored_fields_trimmed_witness :
  strip (lit "Alice") = lit "Alice"
  /\ (forall c r, lit "Alice" = c :: r -> is_space c = false)
  /\ (forall c r, lit "Alice" = r ++ [c] -> is_space c = false).
Proof.
  apply (X5_stored_fields_trimmed cpython (peer rich_payload) col0 t0 Returned
           (close (drained (peer rich_payload)))
           {| docs := [alice_doc]; calls := 1; fault := fault col0 |}
           alice_doc (lit "username") (lit "Alice")).
  - vm_compute. reflexivity.
  - reflexivity.
  - left. reflexivity.
  - reflexivity.
Defined.

(** ** [SimpleRouter] *)

Section RouterFacts.
Local Open Scope N_scope.

Lemma status_of_page (status : N) (ct : pystr) (data : bytes) :
  status_of (page status ct data) = Some status.
Proof. reflexivity. Qed.

(** [_respond_404] answers 404, unless [error.html] cannot be read. *)
Lemma respond_404_cases (st : site) :
  match files st (lit "error.html") with
  | Unreadable reason => _respond_404 st = ([], Raise (OSError reason))
  | _ => snd (_respond_404 st) = Ok tt
         /\ status_of (fst (_respond_404 st)) = Some 404
  end.
Proof.
  unfold _respond_404. destruct (files st (lit "error.html")); auto.
Qed.

Lemma declares_length_page (status : N) (ct : pystr) (data : bytes) :
  declares_length (page status ct data).
Proof.
  intros d H. unfold page in *. cbn [In] in *.
  destruct H as [H|[H|[H|[H|[H|[]]]]]]; try discriminate.
  injection H as <-. right; right; left. reflexivity.
Qed.

Lemma declares_length_error (code : N) (msg : pystr) :
  declares_length [send_error code msg].
Proof. intros d [H|[]]. discriminate. Qed.

Lemma declares_length_nothing : declares_length [].
Proof. intros d []. Qed.

Lemma declares_length_404 (st : site) : declares_length (fst (_respond_404 st)).
Proof.
  unfold _respond_404. destruct (files st (lit "error.html")); cbn [fst].
  - apply declares_length_page.
  - apply declares_length_error.
  - apply declares_length_nothing.
Qed.

(** The content type [_respond_file] sends for a file that is there. *)
Lemma respond_file_page (st : site) (f : pystr) (status : N)
  (ct : option pystr) (data : bytes) :
  files st f = File data ->
  _respond_file st f status ct
  = (page status
          (match ct with Some (c :: t) => c :: t | _ => guess_type st f end) data,
     Ok tt).
Proof.
  intros Hf. unfold _respond_file, serve_bytes, page. rewrite Hf.
  destruct ct as [[|c t]|]; reflexivity.
Qed.

Lemma guess_type_filled (st : site) (f : pystr) : guess_type st f <> [].
Proof.
  unfold guess_type. destruct (mimetypes st f) as [[|c t]|]; discriminate.
Qed.

Lemma content_type_of_page (status : N) (ct v : pystr) (data : bytes) :
  In (send_header (lit "Content-Type") v) (page status ct data) -> v = ct.
Proof.
  unfold page. cbn [In].
  intros [H|[H|[H|[H|[H|[]]]]]]; try discriminate.
  now injection H as <-.
Qed.

Lemma content_type_of_404 (st : site) (v : pystr) :
  In (send_header (lit "Content-Type") v) (fst (_respond_404 st)) ->
  v = lit "text/html; charset=utf-8".
Proof.
  unfold _respond_404. destruct (files st (lit "error.html")); cbn [fst].
  - apply content_type_of_page.
  - intros [H|[]]. discriminate.
  - intros [].
Qed.

(** [_respond_404] ends with an exception only when [error.html] cannot be
    read. *)
Lemma respond_404_raises (st : site) (reason : string) :
  _respond_404 st = ([], Raise (OSError reason))
  <-> files st (lit "error.html") = Unreadable reason.
Proof.
  unfold _respond_404. destruct (files st (lit "error.html")) as [data| |r].
  - split; discriminate.
  - split; discriminate.
  - split; intros H; now inversion H.
Qed.

End RouterFacts.

(** X6. A [GET] is answered with status 200 or 404, or not answered at all:
    200 exactly when the path is one of the five routes and the file behind
    it can be read; a route whose file is missing is answered like an unknown
    path, with 404.  [_respond_file] catches [FileNotFoundError] and nothing
    else: when the file behind the route exists and cannot be read (a
    directory, a file without permission), or when the route has no file (or
    the path no route) and it is [error.html] that cannot be read, the
    [OSError] leaves [do_GET] and nothing has been sent. *)
Theorem X6_get_status (st : site) (req : request) :
  ((snd (do_GET st req) = Ok tt
    /\ (status_of (fst (do_GET st req)) = Some 200%N
        \/ status_of (fst (do_GET st req)) = Some 404%N))
   \/ exists reason, do_GET st req = ([], Raise (OSError reason)))
  /\ (status_of (fst (do_GET st req)) = Some 200%N <->
      exists f ct data, route (path req) = Some (f, ct) /\ files st f = File data)
  /\ (forall reason,
        do_GET st req = ([], Raise (OSError reason)) <->
        (exists f ct, route (path req) = Some (f, ct)
                      /\ files st f = Unreadable reason)
        \/ ((forall f ct, route (path req) = Some (f, ct) -> files st f = Absent)
            /\ files st (lit "error.html") = Unreadable reason))
  /\ ((forall f ct, route (path req) = Some (f, ct) -> files st f = Absent) ->
      do_GET st req = _respond_404 st).
Proof.
  rewrite do_GET_route.
  assert (N404 : (snd (_respond_404 st) = Ok tt
                  /\ (status_of (fst (_respond_404 st)) = Some 200%N
                      \/ status_of (fst (_respond_404 st)) = Some 404%N))
                 \/ exists reason, _respond_404 st = ([], Raise (OSError reason))).
  { pose proof (respond_404_cases st) as H.
    destruct (files st (lit "error.html")) as [data| |r].
    - left. split; [apply H|right; apply H].
    - left. split; [apply H|right; apply H].
    - right. now exists r. }
  assert (S404 : status_of (fst (_respond_404 st)) <> Some 200%N).
  { unfold _respond_404. destruct (files st (lit "error.html")); discriminate. }
  destruct (route (path req)) as [[f ct]|] eqn:R.
  - destruct (files st f) as [data| |r] eqn:F.
    + split; [left; split; [reflexivity|left; reflexivity]|]. split.
      { split; [intros _; now exists f, ct, data|reflexivity]. }
      split.
      * intros reason. split; [discriminate|].
        intros [(f' & ct' & E & F')|(H & _)].
        -- injection E as <- <-. rewrite F in F'. discriminate.
        -- rewrite (H f ct eq_refl) in F. discriminate.
      * intros H. rewrite (H f ct eq_refl) in F. discriminate.
    + split; [exact N404|]. split.
      { split; [intros H; now apply S404 in H|].
        intros (f' & ct' & data & E & F'). injection E as <- <-.
        rewrite F in F'. discriminate. }
      split; [|reflexivity].
      intros reason. rewrite respond_404_raises. split.
      * intros H. right. split; [|exact H].
        intros f' ct' E. now injection E as <- <-.
      * intros [(f' & ct' & E & F')|(_ & H)]; [|exact H].
        injection E as <- <-. rewrite F in F'. discriminate.
    + split; [right; now exists r|]. split.
      { split; [discriminate|].
        intros (f' & ct' & data & E & F'). injection E as <- <-.
        rewrite F in F'. discriminate. }
      split.
      * intros reason. split.
        -- intros H. left. exists f, ct. split; [reflexivity|].
           congruence.
        -- intros [(f' & ct' & E & F')|(H & _)].
           ++ injection E as <- <-. congruence.
           ++ rewrite (H f ct eq_refl) in F. discriminate.
      * intros H. rewrite (H f ct eq_refl) in F. discriminate.
  - split; [exact N404|]. split.
    { split; [intros H; now apply S404 in H|].
      intros (f & ct & data & E & _). discriminate. }
    split; [|reflexivity].
    intros reason. rewrite respond_404_raises. split.
    + intros H. right. split; [discriminate|exact H].
    + intros [(f' & ct' & E & _)|(_ & H)]; [discriminate|exact H].
Qed.

(** A logo that is a directory, and an [error.html] without read permission:
    the handler is left by the [OSError] and the client gets no response. *)
Example get_unreadable :
  do_GET logo_is_directory (get "/logo.png")
  = ([], Raise (OSError "Is a directory"))
  /\ do_GET logo_is_directory (get "/")
     = (page 200 (lit "text/html; charset=utf-8") (blit "hello"), Ok tt)
  /\ do_GET error_page_locked (get "/nowhere")
     = ([], Raise (OSError "Permission denied"))
  /\ do_GET error_page_locked (get "/")
     = ([], Raise (OSError "Permission denied")).
Proof. repeat split; vm_compute; reflexivity. Qed.

(** X7. Whatever [_respond_file] answers, and so whatever [do_GET] answers,
    every body written is announced by a [Content-Length] header with its
    length, and the [Content-Type] sent is never empty.  For a file that can
    be read the response is the status asked for, the file as body and as
    [Content-Type] the one asked for when that is not empty, else the guess
    of [mimetypes], else [application/octet-stream].  For a file that exists
    and cannot be read nothing is sent and the [OSError] is raised. *)
Theorem X7_file_response_headers
  (st : site) (req : request) (f : pystr) (status : N) (ct : option pystr) :
  declares_length (fst (_respond_file st f status ct))
  /\ declares_length (fst (do_GET st req))
  /\ (forall v,
        In (send_header (lit "Content-Type") v) (fst (_respond_file st f status ct)) ->
        v <> [])
  /\ (forall data c t,
        files st f = File data -> ct = Some (c :: t) ->
        _respond_file st f status ct = (page status (c :: t) data, Ok tt)
        /\ (forall v,
              In (send_header (lit "Content-Type") v)
                 (fst (_respond_file st f status ct)) -> v = c :: t))
  /\ (forall data,
        files st f = File data -> ct = None \/ ct = Some [] ->
        mimetypes st f = None \/ mimetypes st f = Some [] ->
        _respond_file st f status ct
        = (page status (lit "application/octet-stream") data, Ok tt))
  /\ (forall data t,
        files st f = File data -> ct = None \/ ct = Some [] ->
        mimetypes st f = Some t -> t <> [] ->
        _respond_file st f status ct = (page status t data, Ok tt))
  /\ (forall reason,
        files st f = Unreadable reason ->
        _respond_file st f status ct = ([], Raise (OSError reason))).
Proof.
  split.
  { unfold _respond_file. destruct (files st f) as [data| |r] eqn:F.
    - cbn [fst]. intros d H. unfold serve_bytes in *. cbn [In] in *.
      destruct H as [H|[H|[H|[H|[H|[]]]]]]; try discriminate.
      injection H as <-. right; right; left. reflexivity.
    - apply declares_length_404.
    - apply declares_length_nothing. }
  split.
  { rewrite do_GET_route.
    destruct (route (path req)) as [[g c]|]; [|apply declares_length_404].
    destruct (files st g);
      [apply declares_length_page|apply declares_length_404
       |apply declares_length_nothing]. }
  split.
  { intros v H. destruct (files st f) as [data| |r] eqn:F.
    - rewrite (respond_file_page st f status ct data F) in H. cbn [fst] in H.
      apply content_type_of_page in H. subst v.
      destruct ct as [[|c t]|]; try apply guess_type_filled. discriminate.
    - unfold _respond_file in H. rewrite F in H.
      apply content_type_of_404 in H. subst v. discriminate.
    - unfold _respond_file in H. rewrite F in H. destruct H. }
  split.
  { intros data c t F ->.
    rewrite (respond_file_page st f status _ data F).
    split; [reflexivity|]. cbn [fst]. intros v H.
    now apply content_type_of_page in H. }
  split.
  { intros data F Hct Hm. rewrite (respond_file_page st f status ct data F).
    unfold guess_type.
    destruct Hct as [-> | ->]; destruct Hm as [-> | ->]; reflexivity. }
  split.
  { intros data t F Hct Hm Ht. rewrite (respond_file_page st f status ct data F).
    unfold guess_type. rewrite Hm.
    destruct t; [contradiction|]. destruct Hct as [-> | ->]; reflexivity. }
  intros reason F. unfold _respond_file. now rewrite F.
Qed.

(** X8. A [POST] to [/message] never looks at the files, never sends a
    [Content-Length] header, and answers with status 302 or 500 when it
    answers at all. *)
Theorem X8_post_message_response
  (py : interp) (st : site) (req : request) (net : network) :
  path req = lit "/message" ->
  (forall st', do_POST py st' req net = do_POST py st req net)
  /\ Forall (fun e => is_length_header e = false) (fst (fst (do_POST py st req net)))
  /\ (fst (fst (do_POST py st req net)) = []
      \/ status_of (fst (fst (do_POST py st req net))) = Some 302%N
      \/ status_of (fst (fst (do_POST py st req net))) = Some 500%N).
Proof.
  intros Hp. split.
  { intros st'. unfold do_POST. rewrite Hp. reflexivity. }
  unfold do_POST. rewrite Hp. cbn [pystr_eqb negb].
  replace (pystr_eqb (lit "/message") (lit "/message")) with true by reflexivity.
  cbn [negb].
  destruct (build_payload py req) as [payload|e];
    [|split; [constructor|left; reflexivity]].
  destruct (connect_and_send net payload) as [[[]|e] net'].
  - split; [repeat constructor|right; left; reflexivity].
  - unfold error_500.
    destruct (encode _); cbn [fst]; (split; [repeat constructor|right; right; reflexivity]).
Qed.

Lemma X8_post_message_response_witness :
  Forall (fun e => is_length_header e = false)
         (fst (fst (do_POST cpython full (post_form "username=Alice")
                            (net0 (Refused "down")))))
  /\ status_of (fst (fst (do_POST cpython full (post_form "username=Alice")
                                   (net0 (Refused "down"))))) = Some 500%N.
Proof.
  destruct (X8_post_message_response cpython full (post_form "username=Alice")
              (net0 (Refused "down"))) as (_ & H & _).
  - reflexivity.
  - split; [exact H|reflexivity].
Defined.



(** X10. Only the bytes announced by [Content-Length] count: two requests
    with the same headers whose bodies agree on that many bytes are relayed
    as the same payload, whatever else the client sends. *)
Theorem X10_body_cut_at_length (py : interp) (r1 r2 : request) (n : Z) :
  headers r1 = headers r2 ->
  py_int py (header_get (headers r1) (lit "Content-Length") (lit "0")) = Some n ->
  (0 <= n)%Z ->
  firstn (Z.to_nat n) (rfile r1) = firstn (Z.to_nat n) (rfile r2) ->
  build_payload py r1 = build_payload py r2.
Proof.
  intros Hh Hn Hpos Hf.
  assert (Hlow : (-1 <= n)%Z) by lia.
  rewrite (build_payload_ok py r1 n Hn Hlow).
  rewrite Hh in Hn. rewrite (build_payload_ok py r2 n Hn Hlow).
  unfold announced.
  replace (n <? 0)%Z with false by (symmetry; apply Z.ltb_ge; exact Hpos).
  now rewrite Hf.
Qed.

Lemma X10_body_cut_at_length_witness :
  build_payload cpython (post_14 "username=Alice")
  = build_payload cpython (post_14 "username=Alice&message=ignored").
Proof.
  apply (X10_body_cut_at_length cpython (post_14 "username=Alice")
           (post_14 "username=Alice&message=ignored") 14).
  - reflexivity.
  - vm_compute. reflexivity.
  - lia.
  - reflexivity.
Defined.





(** A length of [-2]: the form is lost without a word to the client. *)
Example negative_length_end_to_end :
  submit cpython bare (post_length "-2" "username=Alice") (net0 Delivered)
         col0 clock0
  = Some ([], Raise ValueError, [], col0).
Proof. vm_compute. reflexivity. Qed.

(** ** [socket_server] *)

Section ServerRuns.

(** One handler run: it ends, the connection is drained and closed, and the
    collection has at most one more call and one more document. *)
Lemma handler_step (py : interp) (conn : socket) (col : collection)
  (now : datetime) :
  exists res conn' col' added,
    handle_client py conn col now = Some (res, conn', col')
    /\ inbox conn' = [] /\ closed conn' = true
    /\ docs col' = docs col ++ added
    /\ (List.length added <= 1)%nat
    /\ (calls col' <= S (calls col))%nat.
Proof.
  rewrite handle_client_run. destruct (at_end conn).
  - destruct (process_cases py (List.map chunk_bytes (inbox conn)) now col)
      as [(e & _ & P)|(built & _ & P)]; rewrite P; cbn [fst snd].
    + do 3 eexists. exists []. rewrite app_nil_r. repeat split; auto.
    + unfold insert_one. destruct (fault col (calls col)); cbn [snd].
      * do 3 eexists. exists []. cbn [docs calls]. rewrite app_nil_r.
        repeat split; auto.
      * do 3 eexists. exists [built]. cbn [docs calls List.length].
        repeat split; auto.
  - do 3 eexists. exists []. rewrite app_nil_r. repeat split; auto.
Qed.

Lemma fields_of_record_for (py : interp) (raw : pystr) (now : datetime) :
  fields_of (record_for py raw now)
  = (Some (submitted py raw (lit "username")),
     Some (submitted py raw (lit "message"))).
Proof. reflexivity. Qed.

(** On a collection that accepts every insert, a handler adds the fields of
    its connection's contribution, whatever the clock reads. *)
Lemma handler_contribution (py : interp) (conn : socket) (col : collection)
  (now : datetime) :
  (forall i, fault col i = None) ->
  exists res conn' col',
    handle_client py conn col now = Some (res, conn', col')
    /\ List.map fields_of (docs col')
       = List.map fields_of (docs col) ++ contribution py conn
    /\ (forall i, fault col' i = None).
Proof.
  intros Hh. unfold contribution. destruct (at_end conn) eqn:He.
  - rewrite (handle_client_eof py conn col now He).
    destruct (decode_payload py (decode (received conn))) as [doc_in|e].
    + destruct (unusable doc_in).
      * do 3 eexists. split; [reflexivity|]. rewrite app_nil_r.
        split; [reflexivity|exact Hh].
      * destruct (insert_one_healthy col
                    (record_for py (decode (received conn)) now) Hh) as [Hd Hh'].
        do 3 eexists. split; [reflexivity|]. split; [|exact Hh'].
        rewrite Hd, map_app. cbn [List.map]. now rewrite fields_of_record_for.
    + do 3 eexists. split; [reflexivity|]. rewrite app_nil_r.
      split; [reflexivity|exact Hh].
  - rewrite (handle_client_reset py conn col now He).
    do 3 eexists. split; [reflexivity|]. rewrite app_nil_r. split; [reflexivity|exact Hh].
Qed.

Lemma socket_server_contributions (py : interp) (conns : list socket)
  (clock : nat -> datetime) :
  forall (k : nat) (col : collection),
    (forall i, fault col i = None) ->
    exists ends col',
      socket_server py conns clock k col = Some (ends, col')
      /\ List.map fields_of (docs col')
         = List.map fields_of (docs col) ++ flat_map (contribution py) conns.
Proof.
  induction conns as [|conn rest IH]; intros k col Hh.
  - exists [], col. cbn. now rewrite app_nil_r.
  - cbn [socket_server flat_map].
    destruct (handler_contribution py conn col (clock k) Hh)
      as (res & conn' & col1 & H1 & F1 & Hh1).
    destruct (IH (S k) col1 Hh1) as (ends & col2 & H2 & F2).
    rewrite H1, H2. do 2 eexists. split; [reflexivity|].
    now rewrite F2, F1, <- app_assoc.
Qed.

End ServerRuns.

(** X13. The server handles every connection it accepts, whatever happened
    to the ones before (an exception in a handler, a failed insert): each gets
    its own handler run, is read to the end and closed; the collection gets
    at most one call and one document per connection, and what it held
    before stays in place. *)
Theorem X13_every_connection_handled
  (py : interp) (conns : list socket) (clock : nat -> datetime) :
  forall (k : nat) (col : collection),
  exists ends col' added,
    socket_server py conns clock k col = Some (ends, col')
    /\ List.length ends = List.length conns
    /\ Forall (fun e => inbox (snd e) = [] /\ closed (snd e) = true) ends
    /\ docs col' = docs col ++ added
    /\ (List.length added <= List.length conns)%nat
    /\ (calls col' <= calls col + List.length conns)%nat.
Proof.
  induction conns as [|conn rest IH]; intros k col.
  - exists [], col, []. cbn. rewrite app_nil_r. repeat split; auto; lia.
  - cbn [socket_server].
    destruct (handler_step py conn col (clock k))
      as (res & conn' & col1 & a1 & H1 & Hi & Hc & Hd & Hl & Hn).
    destruct (IH (S k) col1) as (ends & col2 & a2 & H2 & L2 & F2 & D2 & A2 & N2).
    rewrite H1, H2. exists ((res, conn') :: ends), col2, (a1 ++ a2).
    split; [reflexivity|]. split; [cbn; now rewrite L2|].
    split; [constructor; [split; assumption|exact F2]|].
    split; [now rewrite D2, Hd, app_assoc|].
    split; [rewrite length_app; cbn [List.length]; lia|].
    cbn [List.length]. lia.
Qed.

(** X14. On a collection that accepts every insert, the fields stored do
    not depend on the order in which the connections are handled: handling
    the same connections in another order, at other times, stores the same
    Records up to their order and their dates. *)
Theorem X14_order_irrelevant
  (py : interp) (conns1 conns2 : list socket) (clock1 clock2 : nat -> datetime)
  (k1 k2 : nat) (col : collection) :
  (forall i, fault col i = None) ->
  Permutation conns1 conns2 ->
  exists ends1 col1 ends2 col2,
    socket_server py conns1 clock1 k1 col = Some (ends1, col1)
    /\ socket_server py conns2 clock2 k2 col = Some (ends2, col2)
    /\ Permutation (List.map fields_of (docs col1)) (List.map fields_of (docs col2)).
Proof.
  intros Hh Hp.
  destruct (socket_server_contributions py conns1 clock1 k1 col Hh)
    as (e1 & c1 & H1 & F1).
  destruct (socket_server_contributions py conns2 clock2 k2 col Hh)
    as (e2 & c2 & H2 & F2).
  exists e1, c1, e2, c2. split; [exact H1|]. split; [exact H2|].
  rewrite F1, F2. apply Permutation_app_head, Permutation_flat_map, Hp.
Qed.

Lemma X14_order_irrelevant_witness :
  exists ends1 col1 ends2 col2,
    socket_server cpython [peer rich_payload; peer (blit "not json")] clock0 0 col0
    = Some (ends1, col1)
    /\ socket_server cpython [peer (blit "not json"); peer rich_payload] clock0 5 col0
       = Some (ends2, col2)
    /\ Permutation (List.map fields_of (docs col1)) (List.map fields_of (docs col2)).
Proof.
  apply (X14_order_irrelevant cpython [peer rich_payload; peer (blit "not json")]
           [peer (blit "not json"); peer rich_payload] clock0 clock0 0 5 col0).
  - reflexivity.
  - apply perm_swap.
Defined.

(** X15. The connections of a list of submissions, handled on a collection
    that accepts every insert, leave one Record each, in the order in which
    they are handled, with the trimmed fields of the submission: none is
    lost and none is stored twice. *)
Theorem X15_one_record_per_submission
  (py : interp) (net : network) (clock : nat -> datetime)
  (subs : list (pystr * pystr))
  (k : nat) (col : collection) :
  (forall i, fault col i = None) ->
  Forall (fun p => scalar_text (fst p) /\ scalar_text (snd p)) subs ->
  exists ends col',
    socket_server py
      (List.map (fun p => arriving net (wire (fst p) (snd p)) Eof) subs)
      clock k col = Some (ends, col')
    /\ Forall (fun e => fst e = Returned) ends
    /\ List.length (docs col') = (List.length (docs col) + List.length subs)%nat
    /\ List.map fields_of (docs col')
       = List.map fields_of (docs col)
         ++ List.map (fun p => (Some (strip (fst p)), Some (strip (snd p)))) subs.
Proof.
  intros Hh Hs.
  destruct (socket_server_one_record_each py net clock subs k col Hh Hs)
    as (ends & col' & H & R & F).
  exists ends, col'. split; [exact H|]. split; [exact R|]. split; [|exact F].
  apply (f_equal (@List.length _)) in F.
  rewrite length_app, !length_map in F. exact F.
Qed.

Lemma X15_one_record_per_submission_witness :
  exists ends col',
    socket_server cpython
      (List.map (fun p => arriving (net0 Delivered) (wire (fst p) (snd p)) Eof)
                [(lit "Alice", lit "hi"); (lit "Bob", lit " yo ")])
      clock0 0 col0 = Some (ends, col')
    /\ List.map fields_of (docs col')
       = [(Some (lit "Alice"), Some (lit "hi")); (Some (lit "Bob"), Some (lit "yo"))].
Proof.
  destruct (X15_one_record_per_submission cpython (net0 Delivered) clock0
              [(lit "Alice", lit "hi"); (lit "Bob", lit " yo ")] 0 col0)
    as (ends & col' & H & _ & _ & F).
  - reflexivity.
  - unfold scalar_text. repeat constructor.
  - exists ends, col'. split; [exact H|]. rewrite F. reflexivity.
Defined.
